(** * Configuration lookup of the Angular CLI (packages/angular/cli/utilities/config.ts)

    A shallow embedding of [config.ts] and the properties of its project
    selection, global-file lookup, scope cache, settings cascade and legacy
    migration.

    Conventions of the embedding:
    - a JavaScript string is a [string], one character per code unit, and a
      file on disk holds the characters of the string written to it;
    - a JavaScript object used as a dictionary ([extensions], parsed JSON
      objects, the [cachedWorkspaces] map, the disk) is a [gmap];
      [workspace.projects], whose declaration order the code depends on, is an
      association list in declaration order;
    - [string | null] and [string | undefined] are [option string];
    - code with effects (disk, cache, exceptions) runs in the monad [M] over
      the process state; every disk access and every cache write is also
      recorded in a ghost [trace], so that "reads the disk" and "writes the
      cache" are observable;
    - an [async] function is split at its [await]: the part before it and the
      continuation after it are two computations, and the function called
      and awaited with nothing in between is their composition. *)

From stdpp Require Import gmap strings list fin_maps pretty.
From Stdlib Require Import ZArith Ascii String Permutation.

Set Warnings "-register-all,-clear-no-such-hyp".
#[local] Open Scope string_scope.

(* ------------------------------------------------------------------------- *)
(** ** Node's [path] module, POSIX flavour *)
(* ------------------------------------------------------------------------- *)

(** The functions of [path] that [config.ts] calls, as [path.posix] defines
    them. Node scans the characters of a path; here a path is cut into its
    segments at the slashes, which gives the same results: [normalizeString]
    drops empty and "." segments and lets ".." remove the segment before it
    (or stay, above the start of a relative path), and [relative] compares
    the two resolved paths segment by segment. The working directory is an
    argument; it is absolute, as [process.cwd()] is. *)
Module NodePath.

(** The characters of [s] cut at every "/" ([cur] is the piece being read). *)
Fixpoint splitSlash (cur s : string) : list string :=
  match s with
  | EmptyString => [cur]
  | String c s' =>
      if Ascii.eqb c "/" then cur :: splitSlash "" s'
      else splitSlash (cur ++ String c "") s'
  end.

Definition joinSlash (segs : list string) : string :=
  match segs with
  | [] => ""
  | s :: rest => foldl (fun acc x => acc ++ "/" ++ x) s rest
  end.

(** One step of [normalizeString]: [stack] holds the segments kept so far,
    the last one first. *)
Definition pushSegment (allowAboveRoot : bool) (stack : list string) (seg : string)
  : list string :=
  if String.eqb seg "" || String.eqb seg "." then stack
  else if String.eqb seg ".." then
    match stack with
    | top :: rest =>
        if String.eqb top ".."
        then (if allowAboveRoot then ".." :: stack else stack)
        else rest
    | [] => if allowAboveRoot then [".."] else []
    end
  else seg :: stack.

Definition normalizeSegments (path : string) (allowAboveRoot : bool) : list string :=
  rev (foldl (pushSegment allowAboveRoot) [] (splitSlash "" path)).

Definition normalizeString (path : string) (allowAboveRoot : bool) : string :=
  joinSlash (normalizeSegments path allowAboveRoot).

Definition startsWithSlash (p : string) : bool :=
  match p with
  | String c _ => Ascii.eqb c "/"
  | EmptyString => false
  end.

Definition endsWithSlash (p : string) : bool :=
  match rev (list_ascii_of_string p) with
  | c :: _ => Ascii.eqb c "/"
  | [] => false
  end.

Definition isAbsolute (p : string) : bool := startsWithSlash p.

Definition normalize (path : string) : string :=
  if String.eqb path "" then "."
  else
    let isAbs := startsWithSlash path in
    let trailingSeparator := endsWithSlash path in
    let p := normalizeString path (negb isAbs) in
    if String.eqb p "" then
      (if isAbs then "/" else if trailingSeparator then "./" else ".")
    else
      let p := if trailingSeparator then p ++ "/" else p in
      if isAbs then "/" ++ p else p.

Definition join (args : list string) : string :=
  match filter (fun a => a <> "") args with
  | [] => "."
  | parts => normalize (joinSlash parts)
  end.

(** The loop of [resolve], from the last argument to the first and then the
    working directory, until an absolute piece is met. *)
Fixpoint resolveLoop (rargs : list string) (resolvedPath : string) : string * bool :=
  match rargs with
  | [] => (resolvedPath, false)
  | p :: rest =>
      if String.eqb p "" then resolveLoop rest resolvedPath
      else
        let resolvedPath := p ++ "/" ++ resolvedPath in
        if startsWithSlash p then (resolvedPath, true)
        else resolveLoop rest resolvedPath
  end.

Definition resolve (cwd : string) (args : list string) : string :=
  let '(resolvedPath, resolvedAbsolute) := resolveLoop (rev args ++ [cwd]) "" in
  let p := normalizeString resolvedPath (negb resolvedAbsolute) in
  if resolvedAbsolute then "/" ++ p
  else if String.eqb p "" then "." else p.

(** Segments of a resolved (absolute, normalized) path. *)
Definition segments (p : string) : list string :=
  filter (fun s => s <> "") (splitSlash "" p).

Fixpoint commonPrefix (a b : list string) : nat :=
  match a, b with
  | x :: a', y :: b' => if String.eqb x y then S (commonPrefix a' b') else 0
  | _, _ => 0
  end.

(** [relative]: climb out of what [from] does not share with [to], then
    descend along the rest of [to]. *)
Definition relative (cwd from to : string) : string :=
  if String.eqb from to then ""
  else
    let from := resolve cwd [from] in
    let to := resolve cwd [to] in
    if String.eqb from to then ""
    else
      let f := segments from in
      let t := segments to in
      let n := commonPrefix f t in
      joinSlash (replicate (List.length f - n) ".." ++ drop n t).

Fixpoint dropWhile (f : ascii -> bool) (l : list ascii) : list ascii :=
  match l with
  | [] => []
  | c :: l' => if f c then dropWhile f l' else l
  end.

(** [dirname]: from the end (never looking at the first character), skip
    the trailing slashes, then the last segment; what stands before the
    slash found there is the directory. *)
Definition dirname (path : string) : string :=
  match list_ascii_of_string path with
  | [] => "."
  | c0 :: rest =>
      let hasRoot := Ascii.eqb c0 "/" in
      let isSlash := fun c => Ascii.eqb c "/" in
      match dropWhile (fun c => negb (isSlash c)) (dropWhile isSlash (rev rest)) with
      | [] => if hasRoot then "/" else "."
      | _ :: before =>
          if hasRoot && (List.length before =? 0)%nat then "//"
          else string_of_list_ascii (c0 :: rev before)
      end
  end.

End NodePath.

(* ------------------------------------------------------------------------- *)
(** ** Data model *)
(* ------------------------------------------------------------------------- *)

(** [json.JsonValue]. Numbers are never computed with; integer literals are
    enough for the documents of this module. *)
Inductive JsonValue : Type :=
  | JNull
  | JBool (b : bool)
  | JNum (n : Z)
  | JStr (s : string)
  | JArr (items : list JsonValue)
  | JObj (members : gmap string JsonValue).

(** [JsonAstNode], positions and comments erased: what is left is the kind
    and, for an object, its properties in source order. *)
Inductive JsonAstNode : Type :=
  | AstNull
  | AstBool (b : bool)
  | AstNum (n : Z)
  | AstStr (s : string)
  | AstArr (elements : list JsonAstNode)
  | AstObj (properties : list (string * JsonAstNode)).

(** [node.value], the value of an AST node; of two properties of one name the later
    one stays. *)
Fixpoint astValue (node : JsonAstNode) : JsonValue :=
  match node with
  | AstNull => JNull
  | AstBool b => JBool b
  | AstNum n => JNum n
  | AstStr s => JStr s
  | AstArr elements => JArr (map astValue elements)
  | AstObj properties =>
      JObj ((fix members (ps : list (string * JsonAstNode)) : gmap string JsonValue :=
               match ps with
               | [] => ∅
               | (k, v) :: ps' => members ps' ∪ {[ k := astValue v ]}
               end) properties)
  end.

(** The first property of a name. *)
Fixpoint property (name : string) (ps : list (string * JsonAstNode))
  : option JsonAstNode :=
  match ps with
  | [] => None
  | (k, v) :: ps' => if String.eqb k name then Some v else property name ps'
  end.

(** [workspaces.ProjectDefinition], the two fields this module reads;
    [root] is a string, as the type declares it. *)
Record ProjectDefinition : Type := {
  root : string;
  projectExtensions : gmap string JsonValue;
}.

(** [workspaces.WorkspaceDefinition]; [projects] in declaration order, as
    [Array.from(workspace.projects)] lists them. *)
Record WorkspaceDefinition : Type := {
  extensions : gmap string JsonValue;
  projects : list (string * ProjectDefinition);
}.

(** [class AngularWorkspace]. *)
Record AngularWorkspace : Type := {
  workspace : WorkspaceDefinition;
  filePath : string;
}.

Definition basePath (w : AngularWorkspace) : string := NodePath.dirname (filePath w).

(** [workspace.projects.get(name)] *)
Fixpoint projects_get (ps : list (string * ProjectDefinition)) (name : string)
  : option ProjectDefinition :=
  match ps with
  | [] => None
  | (n, p) :: rest => if String.eqb n name then Some p else projects_get rest name
  end.

(** [workspace.projects.size] *)
Definition projects_size (ps : list (string * ProjectDefinition)) : nat := List.length ps.

(** The process: [os.homedir()], [process.env['XDG_CONFIG_HOME']],
    [process.cwd()], [__dirname]. *)
Record Env : Type := {
  os_homedir : string;
  env_XDG_CONFIG_HOME : option string;
  process_cwd : string;
  dirname__ : string;
}.

(** JavaScript truthiness of a string. *)
Definition truthy (s : string) : bool := negb (String.eqb s "").

Definition isJsonObject (value : option JsonValue) : option (gmap string JsonValue) :=
  match value with
  | Some (JObj m) => Some m
  | _ => None
  end.

Definition configNames : list string := ["angular.json"; ".angular.json"].
Definition globalFileName : string := ".angular-config.json".

(* ------------------------------------------------------------------------- *)
(** ** Project selection *)
(* ------------------------------------------------------------------------- *)

(** [Array.prototype.sort] is stable; insertion from the right is a stable
    sort, and [x], which stood before every element of [l], stays before the
    elements it compares equal to. *)
Fixpoint insertSorted {A} (compareFn : A -> A -> Z) (x : A) (l : list A) : list A :=
  match l with
  | [] => [x]
  | y :: l' =>
      if (compareFn x y <=? 0)%Z then x :: y :: l'
      else y :: insertSorted compareFn x l'
  end.

Definition sort {A} (compareFn : A -> A -> Z) (l : list A) : list A :=
  foldr (insertSorted compareFn) [] l.

(** [(a, b) => b[0].length - a[0].length] *)
Definition byDepth (a b : string * string) : Z :=
  (Z.of_nat (String.length b.1) - Z.of_nat (String.length a.1))%Z.

(** The filter that builds [sameRoots]: an element is kept when its root was
    met before. *)
Fixpoint sameRoots (found : gset string) (l : list (string * string))
  : list (string * string) :=
  match l with
  | [] => []
  | v :: l' =>
      if decide (v.1 ∈ found) then v :: sameRoots found l'
      else sameRoots ({[ v.1 ]} ∪ found) l'
  end.

Section ProjectSelector.
Variable env : Env.

Definition isInside (w : AngularWorkspace) (base potential : string) : bool :=
  let absoluteBase := NodePath.resolve (process_cwd env) [basePath w; base] in
  let absolutePotential := NodePath.resolve (process_cwd env) [basePath w; potential] in
  let relativePotential :=
    NodePath.relative (process_cwd env) absoluteBase absolutePotential in
  if negb (String.prefix ".." relativePotential)
     && negb (NodePath.isAbsolute relativePotential)
  then true else false.

(** The tuples [[project.root, name]] of the projects that contain
    [location], in declaration order. *)
Definition candidates (w : AngularWorkspace) (location : string)
  : list (string * string) :=
  List.filter (fun tuple => isInside w tuple.1 location)
    (map (fun '(name, project) => (root project, name)) (projects (workspace w))).

Definition getProjectByPath (w : AngularWorkspace) (location : string) : option string :=
  let projects := sort byDepth (candidates w location) in
  if (List.length projects =? 0)%nat then None
  else if (1 <? List.length projects)%nat
            && (0 <? List.length (sameRoots ∅ projects))%nat then None
  else snd <$> head projects.

(** Truthiness of a [string | null]. *)
Definition truthyName (project : option string) : bool :=
  match project with
  | Some name => truthy name
  | None => false
  end.

Definition getProjectByCwd (w : AngularWorkspace) : option string :=
  if (projects_size (projects (workspace w)) =? 1)%nat then
    fst <$> head (projects (workspace w))
  else
    let project := getProjectByPath w (process_cwd env) in
    if truthyName project then project
    else
      match extensions (workspace w) !! "defaultProject" with
      | Some (JStr defaultProject) =>
          if truthy defaultProject then Some defaultProject else None
      | _ => None
      end.
End ProjectSelector.

(* ------------------------------------------------------------------------- *)
(** ** Process state and effects *)
(* ------------------------------------------------------------------------- *)

Inductive Level : Type := local | global.

#[export] Instance Level_eq_dec : EqDecision Level.
Proof. solve_decision. Defined.

(** The key of a level in [cachedWorkspaces]. *)
Definition levelName (level : Level) : string :=
  match level with
  | local => "local"
  | global => "global"
  end.

Inductive Exception : Type :=
  | Error (message : string)
  | JsonException
  | ENOENT (path : string).

Inductive Outcome (A : Type) : Type :=
  | Return (a : A)
  | Throw (e : Exception).
Arguments Return {A} a.
Arguments Throw {A} e.

(** What the ghost trace records. *)
Inductive Event : Type :=
  | DiskExists (path : string)
  | DiskRead (path : string)
  | DiskWrite (path data : string)
  | DiskFindUp (names : list string) (from : string)
  | CacheSet (level : string).

(** The disk, the module-level [cachedWorkspaces] map (a level is either
    absent, or present with a workspace or with [null]) and the ghost trace,
    newest event first. The disk holds regular files, each under its
    resolved path; a path that names none does not exist. *)
Record State : Type := {
  files : gmap string string;
  cachedWorkspaces : gmap string (option AngularWorkspace);
  trace : list Event;
}.

Definition M (A : Type) : Type := State -> Outcome A * State.

#[export] Instance M_ret : MRet M := fun A a st => (Return a, st).
#[export] Instance M_bind : MBind M := fun A B k m st =>
  match m st with
  | (Return a, st') => k a st'
  | (Throw e, st') => (Throw e, st')
  end.

Definition throw {A} (e : Exception) : M A := fun st => (Throw e, st).

Definition log (e : Event) (st : State) : State :=
  {| files := files st; cachedWorkspaces := cachedWorkspaces st; trace := e :: trace st |}.

(** The collaborators of the module that are not part of it: [findUp] of
    [./find-up], the reader and the two JSON parsers of [@angular-devkit/core]
    (a failure is the message of the error thrown, or [None]), and
    [JSON.stringify] with its indentation argument. *)
Record Collaborators : Type := {
  findUp : list string -> string -> gmap string string -> option string;
  readWorkspace : string -> gmap string string -> string + WorkspaceDefinition;
  parseJson : string -> option JsonValue;
  parseJsonAst : string -> option JsonAstNode;
  JSON_stringify : JsonValue -> option nat -> string;
}.

Section Config.
Variable env : Env.
Variable lib : Collaborators.

(** The file a path names: relative paths are taken from the working
    directory. *)
Definition diskPath (p : string) : string := NodePath.resolve (process_cwd env) [p].

Definition existsSync (p : string) : M bool := fun st =>
  (Return (bool_decide (is_Some (files st !! diskPath p))), log (DiskExists p) st).

Definition readFileSync (p : string) : M string := fun st =>
  match files st !! diskPath p with
  | Some data => (Return data, log (DiskRead p) st)
  | None => (Throw (ENOENT p), log (DiskRead p) st)
  end.

Definition writeFileSync (p data : string) : M unit := fun st =>
  (Return (),
   {| files := <[diskPath p := data]> (files st);
      cachedWorkspaces := cachedWorkspaces st;
      trace := DiskWrite p data :: trace st |}).

Definition findUpIO (names : list string) (from : string) : M (option string) := fun st =>
  (Return (findUp lib names from (files st)), log (DiskFindUp names from) st).

Definition cache_get (level : Level) : M (option (option AngularWorkspace)) := fun st =>
  (Return (cachedWorkspaces st !! levelName level), st).

Definition cache_set (level : Level) (v : option AngularWorkspace) : M unit := fun st =>
  (Return (),
   {| files := files st;
      cachedWorkspaces := <[levelName level := v]> (cachedWorkspaces st);
      trace := CacheSet (levelName level) :: trace st |}).

(** *** Path resolver *)

Definition xdgConfigHome (home : string) (configFile : option string) : string :=
  let p :=
    match env_XDG_CONFIG_HOME env with
    | Some x => if truthy x then x else NodePath.join [home; ".config"; "angular"]
    | None => NodePath.join [home; ".config"; "angular"]
    end in
  match configFile with
  | Some f => if truthy f then NodePath.join [p; f] else p
  | None => p
  end.

(** [a || b] on [string | null] results of [findUp]. *)
Definition orElse (a : option string) (b : M (option string)) : M (option string) :=
  if truthyName a then mret a else b.

Definition projectFilePath (projectPath : option string) : M (option string) :=
  first ← (if truthyName projectPath
           then findUpIO configNames (default "" projectPath)
           else mret None);
  orElse first (
    second ← findUpIO configNames (process_cwd env);
    orElse second (findUpIO configNames (dirname__ env))).

Definition globalFilePath : M (option string) :=
  let home := os_homedir env in
  if negb (truthy home) then mret None
  else
    let xdgConfig := xdgConfigHome home (Some globalFileName) in
    found ← existsSync xdgConfig;
    if found : bool then mret (Some xdgConfig)
    else
      let p := NodePath.join [home; globalFileName] in
      found ← existsSync p;
      if found : bool then mret (Some p)
      else mret None.

(** *** Config store *)

(** Where [getWorkspace] stands when it reaches its [await] or returns
    before it. *)
Inductive Suspended : Type :=
  | Settled (result : option AngularWorkspace)
  | Awaiting (configPath : string).

(** [getWorkspace] up to the call of [workspaces.readWorkspace]. *)
Definition getWorkspace_begin (level : Level) : M Suspended :=
  cached ← cache_get level;
  match cached with
  | Some v => mret (Settled v)
  | None =>
      configPath ← match level with
                   | local => projectFilePath None
                   | global => globalFilePath
                   end;
      if negb (truthyName configPath) then
        _ ← cache_set level None;
        mret (Settled None)
      else mret (Awaiting (default "" configPath))
  end.

Definition readWorkspaceIO (configPath : string) : M (string + WorkspaceDefinition) :=
  fun st => (Return (readWorkspace lib configPath (files st)), log (DiskRead configPath) st).

Definition newline : string := String (ascii_of_nat 10) "".

(** [getWorkspace] from the [await] on: the read settles, the result is
    cached and returned, or the failure is wrapped and thrown. *)
Definition getWorkspace_resume (level : Level) (configPath : string)
  : M (option AngularWorkspace) :=
  result ← readWorkspaceIO configPath;
  match result with
  | inr ws =>
      let workspace := {| workspace := ws; filePath := configPath |} in
      _ ← cache_set level (Some workspace);
      mret (Some workspace)
  | inl message =>
      throw (Error ("Workspace config file cannot be loaded: " ++ configPath
                    ++ newline ++ message))
  end.

(** [await getWorkspace(level)] with no other code run in between. *)
Definition getWorkspace (level : Level) : M (option AngularWorkspace) :=
  s ← getWorkspace_begin level;
  match s with
  | Settled result => mret result
  | Awaiting configPath => getWorkspace_resume level configPath
  end.

Definition createGlobalSettings : M string :=
  let home := os_homedir env in
  if negb (truthy home) then throw (Error "No home directory found.")
  else
    let globalPath := NodePath.join [home; globalFileName] in
    _ ← writeFileSync globalPath
          (JSON_stringify lib (JObj {[ "version" := JNum 1 ]}) None);
    mret globalPath.

(** [data.toString('utf-8', start)] with [start] past a byte order mark. *)
Definition stripBOM (data : string) : string :=
  match data with
  | String b0 (String b1 (String b2 rest)) =>
      if (3 <? String.length data)%nat
         && (nat_of_ascii b0 =? 239)%nat
         && (nat_of_ascii b1 =? 187)%nat
         && (nat_of_ascii b2 =? 191)%nat
      then rest else data
  | _ => data
  end.

(** [getWorkspaceRaw] from the read of [configPath] on. *)
Definition readRaw (configPath : string) : M (option JsonAstNode * option string) :=
  data ← readFileSync configPath;
  let content := stripBOM data in
  match parseJsonAst lib content with
  | None => throw JsonException
  | Some ast =>
      match ast with
      | AstObj _ => mret (Some ast, Some configPath)
      | _ => throw (Error ("Invalid JSON file: " ++ configPath))
      end
  end.

Definition getWorkspaceRaw (level : Level) : M (option JsonAstNode * option string) :=
  configPath ← match level with
               | local => projectFilePath None
               | global => globalFilePath
               end;
  if negb (truthyName configPath) then
    match level with
    | global =>
        configPath ← createGlobalSettings;
        readRaw configPath
    | local => mret (None, None)
    end
  else readRaw (default "" configPath).

(** *** Legacy global file *)

(** [v && typeof v == 'string' && v !== 'default'] *)
Definition legacyPackageManager (legacy : gmap string JsonValue) : option string :=
  match legacy !! "packageManager" with
  | Some (JStr packageManager) =>
      if truthy packageManager && negb (String.eqb packageManager "default")
      then Some packageManager else None
  | _ => None
  end.

(** The three [if]s by which [migrateLegacyGlobalConfig] fills the [cli]
    object from the legacy document, each as the change it makes to [cli]. *)
Definition withPackageManager (legacy cli : gmap string JsonValue)
  : gmap string JsonValue :=
  match legacyPackageManager legacy with
  | Some packageManager => <["packageManager" := JStr packageManager]> cli
  | None => cli
  end.

Definition withDefaultCollection (legacy cli : gmap string JsonValue)
  : gmap string JsonValue :=
  match isJsonObject (legacy !! "defaults") with
  | Some defaults =>
      match isJsonObject (defaults !! "schematics") with
      | Some schematics =>
          match schematics !! "collection" with
          | Some (JStr collection) => <["defaultCollection" := JStr collection]> cli
          | _ => cli
          end
      | None => cli
      end
  | None => cli
  end.

Definition withWarnings (legacy cli : gmap string JsonValue)
  : gmap string JsonValue :=
  match isJsonObject (legacy !! "warnings") with
  | Some legacyWarnings =>
      let warnings : gmap string JsonValue :=
        match legacyWarnings !! "versionMismatch" with
        | Some (JBool b) => {[ "versionMismatch" := JBool b ]}
        | _ => ∅
        end in
      if (0 <? size warnings)%nat then <["warnings" := JObj warnings]> cli else cli
  | None => cli
  end.

(** The [cli] object at the end of the three. *)
Definition legacyCli (legacy : gmap string JsonValue) : gmap string JsonValue :=
  withWarnings legacy (withDefaultCollection legacy (withPackageManager legacy ∅)).

Definition migrateLegacyGlobalConfig : M bool :=
  let homeDir := os_homedir env in
  if truthy homeDir then
    let legacyGlobalConfigPath := NodePath.join [homeDir; ".angular-cli.json"] in
    found ← existsSync legacyGlobalConfigPath;
    if found : bool then
      content ← readFileSync legacyGlobalConfigPath;
      match parseJson lib content with
      | None => throw JsonException
      | Some legacy =>
          match isJsonObject (Some legacy) with
          | None => mret false
          | Some legacy =>
              let cli := legacyCli legacy in
              if (0 <? size cli)%nat then
                let globalPath := NodePath.join [homeDir; globalFileName] in
                _ ← writeFileSync globalPath
                      (JSON_stringify lib
                         (JObj (<["version" := JNum 1]> {[ "cli" := JObj cli ]}))
                         (Some 2));
                mret true
              else mret false
          end
      end
    else mret false
  else mret false.

Definition getLegacyPackageManager : M (option string) :=
  let homeDir := os_homedir env in
  if truthy homeDir then
    let legacyGlobalConfigPath := NodePath.join [homeDir; ".angular-cli.json"] in
    found ← existsSync legacyGlobalConfigPath;
    if found : bool then
      content ← readFileSync legacyGlobalConfigPath;
      match parseJson lib content with
      | None => throw JsonException
      | Some legacy =>
          match isJsonObject (Some legacy) with
          | None => mret None
          | Some legacy => mret (legacyPackageManager legacy)
          end
      end
    else mret None
  else mret None.

(** *** Settings resolver *)

(** [workspace.projects.get(project)?.extensions[key]] *)
Definition projectExtension (w : AngularWorkspace) (project key : string)
  : option JsonValue :=
  p ← projects_get (projects (workspace w)) project;
  projectExtensions p !! key.

(** The inner function of [getConfiguredPackageManager]. *)
Definition getPackageManager (source : option JsonValue) : option string :=
  match isJsonObject source with
  | Some source =>
      match source !! "packageManager" with
      | Some (JStr value) => if truthy value then Some value else None
      | _ => None
      end
  | None => None
  end.

(** [a ?? b] on [string | undefined]. *)
Definition coalesce (a b : option string) : option string :=
  match a with
  | Some _ => a
  | None => b
  end.

Definition getConfiguredPackageManager : M (option string) :=
  localWorkspace ← getWorkspace local;
  let result :=
    match localWorkspace with
    | Some w =>
        let project := getProjectByCwd env w in
        let result :=
          if truthyName project
          then getPackageManager (projectExtension w (default "" project) "cli")
          else None in
        coalesce result (getPackageManager (extensions (workspace w) !! "cli"))
    | None => None
    end in
  match result with
  | Some _ => mret result
  | None =>
      globalOptions ← getWorkspace global;
      let result :=
        getPackageManager (g ← globalOptions; extensions (workspace g) !! "cli") in
      match localWorkspace, globalOptions with
      | None, None => getLegacyPackageManager
      | _, _ => mret result
      end
  end.

(** The own enumerable properties [Object.assign] copies from a source:
    the members of an object, the indexed elements of an array, the indexed
    characters of a string, and nothing otherwise. *)
Definition ownProperties (source : option JsonValue) : gmap string JsonValue :=
  match source with
  | Some (JObj members) => members
  | Some (JArr items) => list_to_map (imap (fun i v => (pretty i, v)) items)
  | Some (JStr s) =>
      list_to_map (imap (fun i c => (pretty i, JStr (String c "")))
                        (list_ascii_of_string s))
  | _ => ∅
  end.

(** [Object.assign(target, source)]: the source's properties win. *)
Definition Object_assign (target : gmap string JsonValue) (source : option JsonValue)
  : gmap string JsonValue :=
  ownProperties source ∪ target.

(** The inner function of [getSchematicDefaults], with [result] passed
    along. *)
Definition mergeOptions (collection schematic : string)
    (result : gmap string JsonValue) (source : option JsonValue)
  : gmap string JsonValue :=
  match isJsonObject source with
  | Some source =>
      let result := Object_assign result (source !! (collection ++ ":" ++ schematic)) in
      let collectionOptions := source !! collection in
      match isJsonObject collectionOptions with
      | Some collectionOptions => Object_assign result (collectionOptions !! schematic)
      | None => result
      end
  | None => result
  end.

(** The properties the two [Object.assign] of [mergeOptions] copy from a
    source: those of [source["<collection>:<schematic>"]] and those of
    [source[collection][schematic]]. *)
Definition qualifiedOptions (collection schematic : string) (source : option JsonValue)
  : gmap string JsonValue :=
  ownProperties (s ← isJsonObject source; s !! (collection ++ ":" ++ schematic)).

Definition nestedOptions (collection schematic : string) (source : option JsonValue)
  : gmap string JsonValue :=
  ownProperties (s ← isJsonObject source;
                 c ← isJsonObject (s !! collection);
                 c !! schematic).

Definition getSchematicDefaults (collection schematic : string) (project : option string)
  : M (gmap string JsonValue) :=
  let result : gmap string JsonValue := ∅ in
  globalOptions ← getWorkspace global;
  let result :=
    mergeOptions collection schematic result
      (g ← globalOptions; extensions (workspace g) !! "schematics") in
  localWorkspace ← getWorkspace local;
  match localWorkspace with
  | Some w =>
      let result :=
        mergeOptions collection schematic result
          (extensions (workspace w) !! "schematics") in
      let project := if truthyName project then project else getProjectByCwd env w in
      if truthyName project then
        mret (mergeOptions collection schematic result
                (projectExtension w (default "" project) "schematics"))
      else mret result
  | None => mret result
  end.

(** The inner function of [isWarningEnabled]. *)
Definition getWarning (warning : string) (source : option JsonValue) : option bool :=
  match isJsonObject source with
  | Some source =>
      match isJsonObject (source !! "warnings") with
      | Some warnings =>
          match warnings !! warning with
          | Some (JBool value) => Some value
          | _ => None
          end
      | None => None
      end
  | None => None
  end.

(** [a ?? b] on [boolean | undefined]. *)
Definition coalesceBool (a b : option bool) : option bool :=
  match a with
  | Some _ => a
  | None => b
  end.

Definition isWarningEnabled (warning : string) : M bool :=
  localWorkspace ← getWorkspace local;
  let result :=
    match localWorkspace with
    | Some w =>
        let project := getProjectByCwd env w in
        let result :=
          if truthyName project
          then getWarning warning (projectExtension w (default "" project) "cli")
          else None in
        coalesceBool result (getWarning warning (extensions (workspace w) !! "cli"))
    | None => None
    end in
  match result with
  | Some enabled => mret enabled
  | None =>
      globalOptions ← getWorkspace global;
      let result :=
        getWarning warning (g ← globalOptions; extensions (workspace g) !! "cli") in
      mret (default true result)
  end.

(** JavaScript truthiness of a JSON value. *)
Definition truthyValue (v : JsonValue) : bool :=
  match v with
  | JNull => false
  | JBool b => b
  | JNum n => negb (n =? 0)%Z
  | JStr s => truthy s
  | JArr _ => true
  | JObj _ => true
  end.

(** [value || {}] *)
Definition orEmptyObject (value : option JsonValue) : JsonValue :=
  match value with
  | Some v => if truthyValue v then v else JObj ∅
  | None => JObj ∅
  end.

(** [AngularWorkspace.getCli] and [AngularWorkspace.getProjectCli]. *)
Definition getCli (w : AngularWorkspace) : JsonValue :=
  orEmptyObject (extensions (workspace w) !! "cli").

Definition getProjectCli (w : AngularWorkspace) (projectName : string) : JsonValue :=
  orEmptyObject (projectExtension w projectName "cli").

(** [getSchemaLocation], whose value is exported as [workspaceSchemaPath], and
    the path [validateWorkspace] gives to [readFileSync]. *)
Definition getSchemaLocation : string :=
  NodePath.join [dirname__ env; "../lib/config/schema.json"].

Definition workspaceSchemaPath : string := getSchemaLocation.

Definition validateWorkspace_schemaPath : string :=
  NodePath.join [dirname__ env; ".."; "lib"; "config"; "schema.json"].
End Config.

(** The UTF-8 byte order mark, bytes [0xef 0xbb 0xbf]. *)
Definition BOM : string :=
  String (ascii_of_nat 239) (String (ascii_of_nat 187) (String (ascii_of_nat 191) "")).

(** A computation that leaves the disk as it is, whether it returns or
    throws. *)
Definition readsOnly {A} (m : M A) : Prop :=
  forall st, files (snd (m st)) = files st.

(** A file name: one segment, not empty and not a dot segment. *)
Definition plainName (name : string) : Prop :=
  NodePath.splitSlash "" name = [name]
  /\ NodePath.endsWithSlash name = false
  /\ name <> "" /\ name <> "." /\ name <> "..".

(** A path whose last segment is [name]. *)
Definition endsIn (name path : string) : Prop :=
  path = name \/ exists pre, path = (pre ++ "/" ++ name)%string.

(** A string without a slash. *)
Fixpoint noSlash (s : string) : bool :=
  match s with
  | EmptyString => true
  | String c s' => negb (Ascii.eqb c "/") && noSlash s'
  end.

(** A segment of a resolved path: a name that is not empty, not a dot
    segment and holds no slash. *)
Definition isSegment (s : string) : Prop :=
  noSlash s = true /\ s <> "" /\ s <> "." /\ s <> "..".

(** The absolute path of the given segments. *)
Definition absolutePath (segs : list string) : string :=
  ("/" ++ NodePath.joinSlash segs)%string.

(** The target lies at or below the base, [rest] being the segments from
    the one to the other: both resolved from the directory of the
    workspace file, as [getProjectByPath] resolves them. *)
Definition belowBase (env : Env) (w : AngularWorkspace) (base location : string)
    (rest : list string) : Prop :=
  NodePath.segments (NodePath.resolve (process_cwd env) [basePath w; location])
  = (NodePath.segments (NodePath.resolve (process_cwd env) [basePath w; base])
       ++ rest)%list.

(* ------------------------------------------------------------------------- *)
(** ** Calls in flight *)
(* ------------------------------------------------------------------------- *)

(** [getWorkspace] is [async]: a call that has to read the file stops at its
    [await], and other code, other calls of [getWorkspace] among it, runs
    before it resumes. The process is followed turn by turn. *)
Inductive Turn : Type :=
  | Invoke (level : Level)
      (** [getWorkspace(level)] is called and runs to its return or its [await] *)
  | Settle (n : nat)
      (** the call waiting at position [n] resumes and runs to its end *)
  | Elsewhere (disk : gmap string string) (events : list Event)
      (** other code runs, leaves the disk as [disk] and these disk events *).

(** The process state and the calls of [getWorkspace] waiting at their
    [await], each with its level and the path it is reading. *)
Record Loop : Type := {
  process : State;
  waiting : list (Level * string);
}.

Definition isCacheSet (level : Level) (e : Event) : bool :=
  match e with
  | CacheSet k => String.eqb k (levelName level)
  | _ => false
  end.

Definition isDiskEvent (e : Event) : bool :=
  match e with
  | CacheSet _ => false
  | _ => true
  end.

(** How often [cachedWorkspaces.set(level, _)] has run. *)
Definition countCacheSet (level : Level) (events : list Event) : nat :=
  List.length (List.filter (isCacheSet level) events).

Definition cacheWrites (level : Level) (st : State) : nat :=
  countCacheSet level (trace st).

(** A process that starts on the disk [fs]. *)
Definition boot (fs : gmap string string) : Loop :=
  {| process := {| files := fs; cachedWorkspaces := ∅; trace := [] |};
     waiting := [] |}.

(** A computation that returns and leaves the cache as it is: it may read
    and write the disk. *)
Definition quiet {A} (m : M A) : Prop :=
  forall st,
    (exists a, fst (m st) = Return a)
    /\ cachedWorkspaces (snd (m st)) = cachedWorkspaces st
    /\ (forall level, cacheWrites level (snd (m st)) = cacheWrites level st).

(** A computation that leaves the cache as it is, whether it returns or
    throws. *)
Definition leavesCache {A} (m : M A) : Prop :=
  forall st,
    cachedWorkspaces (snd (m st)) = cachedWorkspaces st
    /\ (forall level, cacheWrites level (snd (m st)) = cacheWrites level st).

(** What holds of the cache as long as calls for one level do not overlap: a
    level has been written once if it is in the cache and never otherwise,
    and a level for which a call is waiting is not in the cache yet; no two
    calls wait for one level. *)
Definition cacheInvariant (l : Loop) : Prop :=
  NoDup (waiting l).*1
  /\ forall level,
      cacheWrites level (process l)
      = match cachedWorkspaces (process l) !! levelName level with
        | Some _ => 1%nat
        | None => 0%nat
        end
      /\ (level ∈ (waiting l).*1 ->
          cachedWorkspaces (process l) !! levelName level = None).

Section EventLoop.
Variable env : Env.
Variable lib : Collaborators.

Definition turn (l : Loop) (t : Turn) : Loop :=
  match t with
  | Invoke level =>
      match getWorkspace_begin env lib level (process l) with
      | (Return (Awaiting configPath), st) =>
          {| process := st; waiting := waiting l ++ [(level, configPath)] |}
      | (_, st) => {| process := st; waiting := waiting l |}
      end
  | Settle n =>
      match waiting l !! n with
      | Some (level, configPath) =>
          {| process := snd (getWorkspace_resume lib level configPath (process l));
             waiting := delete n (waiting l) |}
      | None => l
      end
  | Elsewhere disk events =>
      {| process :=
           {| files := disk;
              cachedWorkspaces := cachedWorkspaces (process l);
              trace := List.filter isDiskEvent events ++ trace (process l) |};
         waiting := waiting l |}
  end.

Definition turns (l : Loop) (ts : list Turn) : Loop := foldl turn l ts.

(** A turn that lets no two calls for one level overlap: no call for a
    level begins while another call for that level is waiting. *)
Definition admissible (l : Loop) (t : Turn) : Prop :=
  match t with
  | Invoke level => level ∉ (waiting l).*1
  | _ => True
  end.

Fixpoint nonOverlapping (l : Loop) (ts : list Turn) : Prop :=
  match ts with
  | [] => True
  | t :: ts' => admissible l t /\ nonOverlapping (turn l t) ts'
  end.
End EventLoop.

(* ------------------------------------------------------------------------- *)
(** ** A model of the collaborators *)
(* ------------------------------------------------------------------------- *)

(** The theorems below hold for every [Collaborators]; this module gives one,
    on which the module can be run: an upward search, a JSON reader for the
    plain subset of the syntax (no escapes, no fractions, no comments), the
    workspace reader built on it, and a printer. *)
Module Model.

(** Modelled from the spec: [findUp] of [./find-up] (section 4.1): at each
    directory level, from [startDir] upwards, the candidate names are tried
    in order and the first that exists is returned; the search stops,
    with nothing found, at the filesystem root. [fuel] bounds the number of
    levels. *)
Fixpoint findUpFrom (fuel : nat) (cwd : string) (names : list string)
    (currentDir : string) (fs : gmap string string) : option string :=
  match fuel with
  | O => None
  | S fuel =>
      if String.eqb currentDir "" || String.eqb currentDir "/" then None
      else
        match List.find (fun name =>
                bool_decide (is_Some
                  (fs !! NodePath.resolve cwd [NodePath.join [currentDir; name]])))
                names with
        | Some name => Some (NodePath.join [currentDir; name])
        | None => findUpFrom fuel cwd names (NodePath.dirname currentDir) fs
        end
  end.

Definition findUp (cwd : string) (names : list string) (from : string)
    (fs : gmap string string) : option string :=
  findUpFrom (S (String.length from)) cwd names from fs.

(** *** Reading JSON *)

Definition doubleQuote : ascii := ascii_of_nat 34.
Definition backslash : ascii := ascii_of_nat 92.

Definition isSpace (c : ascii) : bool :=
  let n := nat_of_ascii c in
  (n =? 32)%nat || (n =? 9)%nat || (n =? 10)%nat || (n =? 13)%nat.

Fixpoint skipSpace (l : list ascii) : list ascii :=
  match l with
  | c :: l' => if isSpace c then skipSpace l' else l
  | [] => []
  end.

Definition digitOf (c : ascii) : option Z :=
  let n := nat_of_ascii c in
  if (48 <=? n)%nat && (n <=? 57)%nat then Some (Z.of_nat (n - 48)) else None.

Fixpoint readDigits (acc : Z) (l : list ascii) : Z * list ascii :=
  match l with
  | c :: l' =>
      match digitOf c with
      | Some d => readDigits (10 * acc + d)%Z l'
      | None => (acc, l)
      end
  | [] => (acc, [])
  end.

(** The characters up to the closing quote; a backslash is not read. *)
Fixpoint readString (acc : string) (l : list ascii) : option (string * list ascii) :=
  match l with
  | [] => None
  | c :: l' =>
      if Ascii.eqb c doubleQuote then Some (acc, l')
      else if Ascii.eqb c backslash then None
      else readString (acc ++ String c "") l'
  end.

Section Composite.
Variable readValue : list ascii -> option (JsonAstNode * list ascii).

(** Elements after "[" or after a comma. *)
Fixpoint readElements (n : nat) (l : list ascii)
  : option (list JsonAstNode * list ascii) :=
  match n with
  | O => None
  | S n =>
      '(v, rest) ← readValue l;
      match skipSpace rest with
      | c :: rest' =>
          if Ascii.eqb c "," then
            '(vs, rest'') ← readElements n rest';
            Some (v :: vs, rest'')
          else if Ascii.eqb c "]" then Some ([v], rest')
          else None
      | [] => None
      end
  end.

(** Members after "{" or after a comma. *)
Fixpoint readMembers (n : nat) (l : list ascii)
  : option (list (string * JsonAstNode) * list ascii) :=
  match n with
  | O => None
  | S n =>
      match skipSpace l with
      | q :: l1 =>
          if Ascii.eqb q doubleQuote then
            '(k, l2) ← readString "" l1;
            match skipSpace l2 with
            | colon :: l3 =>
                if Ascii.eqb colon ":" then
                  '(v, rest) ← readValue l3;
                  match skipSpace rest with
                  | c :: rest' =>
                      if Ascii.eqb c "," then
                        '(ms, rest'') ← readMembers n rest';
                        Some ((k, v) :: ms, rest'')
                      else if Ascii.eqb c "}" then Some ([(k, v)], rest')
                      else None
                  | [] => None
                  end
                else None
            | [] => None
            end
          else None
      | [] => None
      end
  end.
End Composite.

Fixpoint readValue (fuel : nat) (l : list ascii) : option (JsonAstNode * list ascii) :=
  match fuel with
  | O => None
  | S fuel =>
      match skipSpace l with
      | [] => None
      | c :: rest =>
          if Ascii.eqb c "{" then
            match skipSpace rest with
            | c' :: rest' =>
                if Ascii.eqb c' "}" then Some (AstObj [], rest')
                else
                  '(ms, r) ← readMembers (readValue fuel) (List.length rest) rest;
                  Some (AstObj ms, r)
            | [] => None
            end
          else if Ascii.eqb c "[" then
            match skipSpace rest with
            | c' :: rest' =>
                if Ascii.eqb c' "]" then Some (AstArr [], rest')
                else
                  '(vs, r) ← readElements (readValue fuel) (List.length rest) rest;
                  Some (AstArr vs, r)
            | [] => None
            end
          else if Ascii.eqb c doubleQuote then
            '(s, r) ← readString "" rest;
            Some (AstStr s, r)
          else
            match digitOf c with
            | Some _ =>
                let '(n, r) := readDigits 0 (c :: rest) in Some (AstNum n, r)
            | None =>
                match c :: rest with
                | "t" :: "r" :: "u" :: "e" :: r => Some (AstBool true, r)
                | "f" :: "a" :: "l" :: "s" :: "e" :: r => Some (AstBool false, r)
                | "n" :: "u" :: "l" :: "l" :: r => Some (AstNull, r)
                | _ => None
                end%char
            end
      end
  end.

(** Modelled from the spec: [parseJsonAst] of [@angular-devkit/core]
    ([parseJsonPreservingAst(text) -> AstNode | ParseError], section 6),
    for the plain subset of the syntax. *)
Definition parseJsonAst (text : string) : option JsonAstNode :=
  match readValue (S (String.length text)) (list_ascii_of_string text) with
  | Some (ast, rest) =>
      match skipSpace rest with
      | [] => Some ast
      | _ => None
      end
  | None => None
  end.

(** Modelled from the spec: [parseJson] of [@angular-devkit/core]
    ([parseRelaxedJson(text) -> JsonValue | ParseError], section 6). *)
Definition parseJson (text : string) : option JsonValue :=
  astValue <$> parseJsonAst text.

(** *** Reading a workspace *)

Definition valuesExcept (skip : list string) (ps : list (string * JsonAstNode))
  : gmap string JsonValue :=
  match astValue (AstObj (List.filter (fun kv => negb (bool_decide (kv.1 ∈ skip))) ps)) with
  | JObj m => m
  | _ => ∅
  end.

Definition projectOf (node : JsonAstNode) : ProjectDefinition :=
  match node with
  | AstObj ps =>
      {| root := match astValue node with
                 | JObj m => match m !! "root" with Some (JStr r) => r | _ => "" end
                 | _ => ""
                 end;
         projectExtensions :=
           valuesExcept ["root"; "sourceRoot"; "prefix"; "targets"; "architect"] ps |}
  | _ => {| root := ""; projectExtensions := ∅ |}
  end.

(** Modelled from the spec: [workspaces.readWorkspace] of
    [@angular-devkit/core] (sections 3 and 6): the file is a JSON object
    holding [projects], a mapping from project name to a definition with a
    [root], and extension keys such as [cli], [schematics] and
    [defaultProject]; projects keep their order in the file. A file that is
    missing or is not such an object is a failure. *)
Definition readWorkspace (cwd : string) (configPath : string) (fs : gmap string string)
  : string + WorkspaceDefinition :=
  match fs !! NodePath.resolve cwd [configPath] with
  | None => inl "ENOENT: no such file or directory"
  | Some content =>
      match parseJsonAst content with
      | Some (AstObj ps) =>
          inr {| extensions := valuesExcept ["$schema"; "version"; "projects"] ps;
                 projects :=
                   match property "projects" ps with
                   | Some (AstObj projects) =>
                       map (fun '(name, node) => (name, projectOf node)) projects
                   | _ => []
                   end |}
      | Some _ => inl "Invalid format"
      | None => inl "Invalid JSON"
      end
  end.

(** *** Printing JSON *)

Definition lines (sep : string) (items : list string) : string :=
  match items with
  | [] => ""
  | x :: rest => foldl (fun acc y => acc ++ sep ++ y) x rest
  end.

Definition spaces (n : nat) : string := string_of_list_ascii (replicate n " "%char).

Definition quote (s : string) : string :=
  String doubleQuote s ++ String doubleQuote "".

(** [JSON.stringify(value, null, indent)] for values without characters to
    escape; [depth] is the nesting level, [fuel] bounds it. *)
Fixpoint stringifyAt (fuel : nat) (indent : option nat) (depth : nat) (v : JsonValue)
  : string :=
  let open := match indent with
              | Some n => newline ++ spaces (n * S depth)
              | None => ""
              end in
  let close := match indent with
               | Some n => newline ++ spaces (n * depth)
               | None => ""
               end in
  let colon := match indent with Some _ => ": " | None => ":" end in
  match fuel with
  | O => "null"
  | S fuel =>
      match v with
      | JNull => "null"
      | JBool true => "true"
      | JBool false => "false"
      | JNum n => pretty n
      | JStr s => quote s
      | JArr [] => "[]"
      | JArr items =>
          "[" ++ open
              ++ lines ("," ++ open) (map (stringifyAt fuel indent (S depth)) items)
              ++ close ++ "]"
      | JObj members =>
          match map_to_list members with
          | [] => "{}"
          | kvs =>
              "{" ++ open
                  ++ lines ("," ++ open)
                       (map (fun kv => quote kv.1 ++ colon
                                         ++ stringifyAt fuel indent (S depth) kv.2) kvs)
                  ++ close ++ "}"
          end
      end
  end.

Definition JSON_stringify (v : JsonValue) (indent : option nat) : string :=
  stringifyAt 64 indent 0 v.

Definition lib (env : Env) : Collaborators :=
  Build_Collaborators
    (findUp (process_cwd env)) (readWorkspace (process_cwd env))
    parseJson parseJsonAst JSON_stringify.

End Model.



(* ------------------------------------------------------------------------- *)
(** ** Sample processes and workspaces *)
(* ------------------------------------------------------------------------- *)

Module Examples.

(** A user [u] working in [/w/x], no [XDG_CONFIG_HOME]. *)
Definition env : Env :=
  {| os_homedir := "/home/u";
     env_XDG_CONFIG_HOME := None;
     process_cwd := "/w/x";
     dirname__ := "/cli/utilities" |}.

(** The same user working in a directory whose name begins with two dots,
    inside [/w/a/b]. *)
Definition envDots : Env :=
  {| os_homedir := "/home/u";
     env_XDG_CONFIG_HOME := None;
     process_cwd := "/w/a/b/..c/f";
     dirname__ := "/cli/utilities" |}.

(** The same user with [XDG_CONFIG_HOME=/xdg]. *)
Definition envXdg : Env :=
  {| os_homedir := "/home/u";
     env_XDG_CONFIG_HOME := Some "/xdg";
     process_cwd := "/w/x";
     dirname__ := "/cli/utilities" |}.

(** A workspace read from [/w/angular.json] with the given extensions and
    projects, each project given by its name and root. *)
Definition workspaceOf (exts : gmap string JsonValue) (ps : list (string * string))
  : AngularWorkspace :=
  {| workspace :=
       {| extensions := exts;
          projects := map (fun '(name, r) =>
                             (name, {| root := r; projectExtensions := ∅ |})) ps |};
     filePath := "/w/angular.json" |}.


(** Two projects of one root. *)
Definition sameRoot : AngularWorkspace := workspaceOf ∅ [("one", "a"); ("two", "a")].

(** Nested roots. *)
Definition nested : AngularWorkspace := workspaceOf ∅ [("outer", "a"); ("inner", "a/b")].

(** A single project, whose root does not contain the working directory. *)
Definition single : AngularWorkspace := workspaceOf ∅ [("only", "elsewhere")].

(** Two projects elsewhere and a default project that is not declared. *)
Definition ghostDefault : AngularWorkspace :=
  workspaceOf {[ "defaultProject" := JStr "ghost" ]} [("app", "apps/app"); ("lib", "libs/lib")].

(** JSON text written with apostrophes in place of the double quotes. *)
Fixpoint json (text : string) : string :=
  match text with
  | EmptyString => EmptyString
  | String c rest =>
      String (if Ascii.eqb c (ascii_of_nat 39) then ascii_of_nat 34 else c) (json rest)
  end.

(** A process that starts with the disk [fs]: nothing cached, nothing done. *)
Definition start (fs : gmap string string) : State :=
  {| files := fs; cachedWorkspaces := ∅; trace := [] |}.

(** A global file under the application directory of [XDG_CONFIG_HOME]. *)
Definition diskXdgAppDir : gmap string string :=
  {[ "/xdg/angular/.angular-config.json" := json "{'version':1}" ]}.

(** A global file directly in [XDG_CONFIG_HOME]. *)
Definition diskXdgFlat : gmap string string :=
  {[ "/xdg/.angular-config.json" := json "{'version':1}" ]}.

(** A global file at the default XDG location, of another version. *)
Definition diskXdgDefault : gmap string string :=
  {[ "/home/u/.config/angular/.angular-config.json" := json "{'version':2}" ]}.

(** A legacy global file cut short. *)
Definition diskLegacyMalformed : gmap string string :=
  {[ "/home/u/.angular-cli.json" := "{" ]}.

(** A legacy global file that names a package manager. *)
Definition diskLegacyNpm : gmap string string :=
  {[ "/home/u/.angular-cli.json" := json "{'packageManager':'npm'}" ]}.

(** A legacy global file that leaves the package manager to the default. *)
Definition diskLegacyDefault : gmap string string :=
  {[ "/home/u/.angular-cli.json" := json "{'packageManager':'default'}" ]}.

(** A global file in the home directory. *)
Definition diskGlobal : gmap string string :=
  {[ "/home/u/.angular-config.json" := json "{'version':1}" ]}.

(** Two calls of [getWorkspace('global')], the second begun while the
    first waits at its [await]. *)
Definition overlapping : list Turn :=
  [Invoke global; Invoke global; Settle 0; Settle 0].

(** Calls of [getWorkspace('global')] one after the other, the disk emptied
    in between. *)
Definition oneAfterTheOther : list Turn :=
  [Invoke global; Settle 0; Elsewhere ∅ []; Invoke global].

(** A workspace in [/w] with a package manager and schematic options of
    its own and in its project [x], and a global file with others. *)
Definition diskCascade : gmap string string :=
  {[ "/w/angular.json" :=
       json ("{'version':1,'cli':{'packageManager':'yarn'},"
             ++ "'schematics':{'c:s':{'y':2}},"
             ++ "'projects':{"
             ++ "'x':{'root':'x','cli':{'packageManager':'pnpm'},"
             ++ "'schematics':{'c:s':{'x':3}}},"
             ++ "'y':{'root':'y'}}}");
     "/home/u/.angular-config.json" :=
       json ("{'version':1,'cli':{'packageManager':'npm'},"
             ++ "'schematics':{'c:s':{'x':1}}}") ]}.

(** The two workspaces [diskCascade] holds, as [readWorkspace] gives them. *)
Definition cascadeLocal : AngularWorkspace :=
  {| workspace :=
       {| extensions :=
            <["cli" := JObj {[ "packageManager" := JStr "yarn" ]}]>
              {[ "schematics" := JObj {[ "c:s" := JObj {[ "y" := JNum 2 ]} ]} ]};
          projects :=
            [("x", {| root := "x";
                      projectExtensions :=
                        <["cli" := JObj {[ "packageManager" := JStr "pnpm" ]}]>
                          {[ "schematics" :=
                               JObj {[ "c:s" := JObj {[ "x" := JNum 3 ]} ]} ]} |});
             ("y", {| root := "y"; projectExtensions := ∅ |})] |};
     filePath := "/w/angular.json" |}.

Definition cascadeGlobal : AngularWorkspace :=
  {| workspace :=
       {| extensions :=
            <["cli" := JObj {[ "packageManager" := JStr "npm" ]}]>
              {[ "schematics" := JObj {[ "c:s" := JObj {[ "x" := JNum 1 ]} ]} ]};
          projects := [] |};
     filePath := "/home/u/.angular-config.json" |}.

(** The process once both have been loaded. *)
Definition loaded : State :=
  {| files := diskCascade;
     cachedWorkspaces :=
       <["local" := Some cascadeLocal]> {[ "global" := Some cascadeGlobal ]};
     trace := [] |}.

(** A workspace file cut short. *)
Definition diskWorkspaceMalformed : gmap string string :=
  {[ "/w/angular.json" := "{" ]}.

(** A workspace that enables a warning and whose project [x] disables it,
    loaded in a process without a global file. *)
Definition warningsLocal : AngularWorkspace :=
  {| workspace :=
       {| extensions :=
            {[ "cli" := JObj {[ "warnings" := JObj {[ "versionMismatch" := JBool true ]} ]} ]};
          projects :=
            [("x", {| root := "x";
                      projectExtensions :=
                        {[ "cli" := JObj {[ "warnings" :=
                                              JObj {[ "versionMismatch" := JBool false ]} ]} ]} |});
             ("y", {| root := "y"; projectExtensions := ∅ |})] |};
     filePath := "/w/angular.json" |}.

Definition warned : State :=
  {| files := ∅;
     cachedWorkspaces := <["local" := Some warningsLocal]> {[ "global" := None ]};
     trace := [] |}.

(** A global file that holds an array. *)
Definition diskGlobalArray : gmap string string :=
  {[ "/home/u/.angular-config.json" := "[]" ]}.

(** A global file that begins with a byte order mark. *)
Definition diskGlobalBOM : gmap string string :=
  {[ "/home/u/.angular-config.json" := BOM ++ json "{'version':1}" ]}.

End Examples.

(* ========================================================================= *)
(** * Properties *)
(* ========================================================================= *)

#[local] Open Scope list_scope.

(** ** The stable sort *)

Section SortFacts.
Context {A : Type} (compareFn : A -> A -> Z).

Lemma insertSorted_Permutation x l :
  Permutation (insertSorted compareFn x l) (x :: l).
Proof.
  induction l as [|y l IH]; simpl; [done|].
  destruct (compareFn x y <=? 0)%Z; [done|].
  rewrite IH. apply perm_swap.
Qed.

Lemma sort_Permutation l : Permutation (sort compareFn l) l.
Proof.
  induction l as [|x l IH]; simpl; [done|].
  rewrite insertSorted_Permutation. by constructor.
Qed.

Lemma sort_length l : List.length (sort compareFn l) = List.length l.
Proof. apply Permutation_length, sort_Permutation. Qed.

Lemma head_insertSorted x l :
  head (insertSorted compareFn x l) =
  match head l with
  | None => Some x
  | Some y => if (compareFn x y <=? 0)%Z then Some x else Some y
  end.
Proof. destruct l as [|y l]; simpl; [done|]. by destruct (compareFn x y <=? 0)%Z. Qed.

Lemma head_sort_elem l y : head (sort compareFn l) = Some y -> y ∈ l.
Proof.
  intros H. rewrite <- (sort_Permutation l).
  destruct (sort compareFn l); simplify_eq/=. left.
Qed.

(** An element that no later element beats comes out first of it and them. *)
Lemma head_sort_winner x post :
  (forall y, y ∈ post -> (compareFn x y <= 0)%Z) ->
  head (sort compareFn (x :: post)) = Some x.
Proof.
  intros Hpost. simpl. rewrite head_insertSorted.
  destruct (head (sort compareFn post)) as [y|] eqn:Hy; [|done].
  apply head_sort_elem in Hy. apply Hpost in Hy.
  by apply Z.leb_le in Hy as ->.
Qed.

(** Elements standing before the winner that it beats do not displace it. *)
Lemma head_sort_first_winner pre x post :
  (forall y, y ∈ pre -> (0 < compareFn y x)%Z) ->
  (forall y, y ∈ post -> (compareFn x y <= 0)%Z) ->
  head (sort compareFn (pre ++ x :: post)) = Some x.
Proof.
  intros Hpre Hpost. induction pre as [|a pre IH].
  - by apply head_sort_winner.
  - change (sort compareFn ((a :: pre) ++ x :: post))
      with (insertSorted compareFn a (sort compareFn (pre ++ x :: post))).
    rewrite head_insertSorted, IH.
    + assert (0 < compareFn a x)%Z as Ha by (apply Hpre; left).
      destruct (Z.leb_spec (compareFn a x) 0); [lia|done].
    + intros y Hy. apply Hpre. by right.
Qed.
End SortFacts.

(** ** Repeated roots *)

Lemma sameRoots_nil found l :
  sameRoots found l = [] <-> NoDup l.*1 /\ (forall r, r ∈ l.*1 -> r ∉ found).
Proof.
  revert found. induction l as [|v l IH]; intros found; simpl.
  - split; [intros _; split; [constructor|intros r Hr; inversion Hr]|done].
  - destruct (decide (v.1 ∈ found)) as [Hin|Hnin].
    + split; [done|]. intros [_ H]. exfalso. apply (H v.1); [left|done].
    + rewrite IH. split.
      * intros [Hnd Hf]. split.
        -- constructor; [|done]. intros Hv. apply (Hf _ Hv). set_solver.
        -- intros r Hr. apply elem_of_cons in Hr as [->|Hr]; [done|].
           specialize (Hf _ Hr). set_solver.
      * intros [Hnd Hf]. apply NoDup_cons in Hnd as [Hv Hnd]. split; [done|].
        intros r Hr. apply not_elem_of_union. split.
        -- apply not_elem_of_singleton. intros ->. done.
        -- apply Hf. by right.
Qed.

Lemma sameRoots_empty_nil l : sameRoots ∅ l = [] <-> NoDup l.*1.
Proof.
  rewrite sameRoots_nil. split; [by intros [? _]|]. intros H. split; [done|].
  intros r _. apply not_elem_of_empty.
Qed.

(** ** Project selection by path *)

Section SelectorFacts.
Variable env : Env.

Lemma byDepth_le (x y : string * string) :
  (byDepth x y <= 0)%Z <-> (String.length y.1 <= String.length x.1)%nat.
Proof. unfold byDepth. lia. Qed.

Lemma byDepth_lt (x y : string * string) :
  (0 < byDepth y x)%Z <-> (String.length y.1 < String.length x.1)%nat.
Proof. unfold byDepth. lia. Qed.

(** What [getProjectByPath] returns, in terms of the candidate list. *)
Lemma getProjectByPath_candidates w location :
  getProjectByPath env w location =
  match candidates env w location with
  | [] => None
  | _ :: _ =>
      if decide (NoDup (candidates env w location).*1)
      then snd <$> head (sort byDepth (candidates env w location))
      else None
  end.
Proof.
  unfold getProjectByPath. rewrite sort_length.
  set (cs := candidates env w location).
  destruct (decide (NoDup cs.*1)) as [Hnd|Hnd].
  - assert (sameRoots ∅ (sort byDepth cs) = []) as ->.
    { apply sameRoots_empty_nil. by rewrite (sort_Permutation byDepth cs). }
    simpl. rewrite andb_false_r. by destruct cs.
  - destruct (sameRoots ∅ (sort byDepth cs)) as [|s ss] eqn:Hs.
    { exfalso. apply Hnd. apply sameRoots_empty_nil in Hs.
      by rewrite (sort_Permutation byDepth cs) in Hs. }
    destruct cs as [|c [|c' cs']]; [done| |done].
    exfalso. apply Hnd. simpl. apply NoDup_singleton.
Qed.

(** A list that is not empty splits at the first of its longest roots. *)
Lemma first_longest_exists (cs : list (string * string)) :
  cs ≠ [] ->
  exists pre c post,
    cs = pre ++ c :: post
    /\ (forall t, t ∈ pre -> (String.length t.1 < String.length c.1)%nat)
    /\ (forall t, t ∈ post -> (String.length t.1 <= String.length c.1)%nat).
Proof.
  induction cs as [|a cs IH]; [done|]. intros _.
  destruct cs as [|b cs'].
  { exists [], a, []. split; [done|]. split; intros t Ht; inversion Ht. }
  destruct IH as (pre & c & post & Heq & Hpre & Hpost); [done|].
  destruct (decide (String.length c.1 <= String.length a.1)%nat) as [Hle|Hgt].
  - exists [], a, (b :: cs'). split; [done|]. split; [intros t Ht; inversion Ht|].
    intros t Ht. rewrite Heq in Ht.
    apply elem_of_app in Ht as [Ht|Ht].
    + apply Hpre in Ht. lia.
    + apply elem_of_cons in Ht as [->|Ht]; [done|]. apply Hpost in Ht. lia.
  - exists (a :: pre), c, post. rewrite Heq. split; [done|]. split; [|done].
    intros t Ht. apply elem_of_cons in Ht as [->|Ht]; [lia|by apply Hpre].
Qed.

Lemma getProjectByPath_first_longest w location pre r n post :
  candidates env w location = pre ++ (r, n) :: post ->
  NoDup (candidates env w location).*1 ->
  (forall t, t ∈ pre -> (String.length t.1 < String.length r)%nat) ->
  (forall t, t ∈ post -> (String.length t.1 <= String.length r)%nat) ->
  getProjectByPath env w location = Some n.
Proof.
  intros Hcs Hnd Hpre Hpost. rewrite getProjectByPath_candidates.
  rewrite decide_True by done. rewrite Hcs.
  rewrite head_sort_first_winner.
  - by destruct pre.
  - intros y Hy. apply byDepth_lt. by apply Hpre.
  - intros y Hy. apply byDepth_le. by apply Hpost.
Qed.
End SelectorFacts.

Lemma elem_of_filter_bool {A} (f : A -> bool) (l : list A) (x : A) :
  x ∈ List.filter f l <-> x ∈ l /\ f x = true.
Proof. rewrite !list_elem_of_In. apply filter_In. Qed.

Lemma string_length_app (s1 s2 : string) :
  String.length (s1 ++ s2)%string = (String.length s1 + String.length s2)%nat.
Proof. induction s1 as [|c s1 IH]; simpl; [done|]. by rewrite IH. Qed.

Lemma NoDup_filter_bool {A} (f : A -> bool) (l : list A) :
  NoDup l -> NoDup (List.filter f l).
Proof.
  induction 1 as [|x l Hx Hnd IH]; simpl; [constructor|].
  destruct (f x); [|done]. constructor; [|done].
  rewrite elem_of_filter_bool. by intros [? _].
Qed.

Lemma NoDup_fst_functional {A B} (l : list (A * B)) a b b' :
  NoDup l.*1 -> (a, b) ∈ l -> (a, b') ∈ l -> b = b'.
Proof.
  induction l as [|[x y] l IH]; simpl; intros Hnd H1 H2; [inversion H1|].
  apply NoDup_cons in Hnd as [Hx Hnd].
  apply elem_of_cons in H1 as [H1|H1]; apply elem_of_cons in H2 as [H2|H2].
  - congruence.
  - exfalso. apply Hx. injection H1 as -> ->.
    apply list_elem_of_fmap. by exists (x, b').
  - exfalso. apply Hx. injection H2 as -> ->.
    apply list_elem_of_fmap. by exists (x, b).
  - by apply IH.
Qed.

Section SelectorTheorems.
Variable env : Env.

Lemma elem_of_candidates w location r n :
  (r, n) ∈ candidates env w location <->
  exists p, (n, p) ∈ projects (workspace w) /\ root p = r
            /\ isInside env w r location = true.
Proof.
  unfold candidates. rewrite elem_of_filter_bool, list_elem_of_fmap. simpl. split.
  - intros [[[n' p] [Heq Hin]] Hins]. injection Heq as -> ->. by exists p.
  - intros (p & Hin & <- & Hins). split; [|done]. by exists (n, p).
Qed.

Lemma candidates_NoDup w location :
  NoDup (projects (workspace w)).*1 -> NoDup (candidates env w location).
Proof.
  intros Hnd. unfold candidates. apply NoDup_filter_bool.
  apply (NoDup_fmap_1 snd). rewrite <- list_fmap_compose.
  erewrite list_fmap_ext; [exact Hnd|]. by intros _ [n p] _.
Qed.


(** Nested roots, by the containment test of the code: in a workspace
    where the projects whose root passes the test for the target are one
    of root [a] and one of root [a/b], a target that passes it for [a/b]
    is given to the project of root [a/b]. *)
Theorem getProjectByPath_nested_roots w location nA pA nB pB sub :
  NoDup (projects (workspace w)).*1 ->
  (nA, pA) ∈ projects (workspace w) ->
  (nB, pB) ∈ projects (workspace w) ->
  root pB = (root pA ++ "/" ++ sub)%string ->
  isInside env w (root pB) location = true ->
  (forall n p, (n, p) ∈ projects (workspace w) -> n <> nA -> n <> nB ->
               isInside env w (root p) location = false) ->
  getProjectByPath env w location = Some nB.
Proof.
  intros Hnd HA HB Hroot Hinside Hothers.
  assert (String.length (root pA) < String.length (root pB))%nat as Hlen.
  { rewrite Hroot, !string_length_app. simpl. lia. }
  set (cs := candidates env w location).
  assert (forall t, t ∈ cs -> t = (root pA, nA) \/ t = (root pB, nB)) as Hshape.
  { intros [r n] Ht. apply elem_of_candidates in Ht as (p & Hin & <- & Hins).
    destruct (decide (n = nA)) as [->|HnA].
    { left. by rewrite (NoDup_fst_functional _ _ _ _ Hnd Hin HA). }
    destruct (decide (n = nB)) as [->|HnB].
    { right. by rewrite (NoDup_fst_functional _ _ _ _ Hnd Hin HB). }
    rewrite (Hothers _ _ Hin HnA HnB) in Hins. done. }
  assert ((root pB, nB) ∈ cs) as HBin.
  { apply elem_of_candidates. by exists pB. }
  assert (NoDup cs.*1) as Hnd'.
  { apply NoDup_fmap_2_strong; [|by apply candidates_NoDup].
    intros x y Hx Hy Hxy.
    destruct (Hshape _ Hx) as [->| ->], (Hshape _ Hy) as [->| ->];
      simpl in Hxy; try done; rewrite Hxy in Hlen; lia. }
  destruct (first_longest_exists cs) as (pre & c & post & Heq & Hpre & Hpost).
  { intros Hnil. rewrite Hnil in HBin. inversion HBin. }
  assert (c = (root pB, nB)) as ->.
  { destruct (Hshape c) as [->|]; [rewrite Heq; set_solver| |done].
    exfalso. rewrite Heq in HBin.
    apply elem_of_app in HBin as [HBin|HBin].
    - apply Hpre in HBin. simpl in HBin. lia.
    - apply elem_of_cons in HBin as [HBin|HBin].
      + injection HBin as HBin _. rewrite HBin in Hlen. lia.
      + apply Hpost in HBin. simpl in HBin. lia. }
  by eapply getProjectByPath_first_longest.
Qed.
End SelectorTheorems.


(** Two projects of one root are ambiguous for a path inside it; a path
    inside neither belongs to no project. *)
Example getProjectByPath_same_root_ambiguous :
  getProjectByPath Examples.env Examples.sameRoot "/w/a/f" = None
  /\ getProjectByPath Examples.env Examples.nested "/w/c/f" = None.
Proof. by vm_compute. Qed.


Lemma getProjectByPath_nested_roots_witness :
  getProjectByPath Examples.env Examples.nested "/w/a/b/f" = Some "inner".
Proof.
  apply (getProjectByPath_nested_roots Examples.env Examples.nested "/w/a/b/f"
           "outer" {| root := "a"; projectExtensions := ∅ |}
           "inner" {| root := "a/b"; projectExtensions := ∅ |} "b").
  - vm_compute. repeat constructor; set_solver.
  - vm_compute. set_solver.
  - vm_compute. set_solver.
  - reflexivity.
  - by vm_compute.
  - intros n p Hin HnA HnB. vm_compute in Hin. set_solver.
Defined.

(** C7. The code fails the claim where the first directory below [a/b] has
    a name that begins with two dots. With the roots [a] and [a/b] declared
    in [/w/angular.json] and the working directory [/w/a/b/..c/f], the
    target lies under [a/b], two segments below it; the path from [a/b] to
    it is [..c/f], which the containment test takes for a way out of [a/b],
    so the project of root [a/b] is passed over and the project of root [a]
    is returned, by [getProjectByPath] and so by [getProjectByCwd]. *)
Theorem getProjectByPath_nested_roots_dotdot_name :
  let location := process_cwd Examples.envDots in
  location = "/w/a/b/..c/f"
  /\ belowBase Examples.envDots Examples.nested "a/b" location ["..c"; "f"]
  /\ isInside Examples.envDots Examples.nested "a/b" location = false
  /\ isInside Examples.envDots Examples.nested "a" location = true
  /\ getProjectByPath Examples.envDots Examples.nested location = Some "outer"
  /\ getProjectByCwd Examples.envDots Examples.nested = Some "outer".
Proof. by vm_compute. Qed.

Section CwdTheorems.
Variable env : Env.

(** C6. With exactly one project [getProjectByCwd] returns it, whatever
    the working directory and whether or not its root contains it;
    otherwise it returns what the selection by path gives for the working
    directory when that is a (truthy) name, else the [defaultProject]
    extension when that is present (truthy) and a string, else null. *)
Theorem getProjectByCwd_cascade w :
  let byPath := getProjectByPath env w (process_cwd env) in
  let defaultProject := extensions (workspace w) !! "defaultProject" in
  (projects_size (projects (workspace w)) = 1%nat ->
     exists name project,
       projects (workspace w) = [(name, project)]
       /\ getProjectByCwd env w = Some name)
  /\ (projects_size (projects (workspace w)) <> 1%nat ->
      (forall name, byPath = Some name -> name <> "" ->
                    getProjectByCwd env w = Some name)
      /\ (byPath = None \/ byPath = Some "" ->
          (forall d, defaultProject = Some (JStr d) -> d <> "" ->
                     getProjectByCwd env w = Some d)
          /\ ((forall d, defaultProject = Some (JStr d) -> d = "") ->
              getProjectByCwd env w = None))).
Proof.
  intros byPath defaultProject. unfold getProjectByCwd. fold byPath defaultProject.
  split.
  - intros Hsize. rewrite Hsize. simpl. unfold projects_size in Hsize.
    destruct (projects (workspace w)) as [|[name project] [|? ?]]; simplify_eq/=.
    by exists name, project.
  - intros Hsize. apply Nat.eqb_neq in Hsize as ->. split.
    + intros name -> Hne. simpl. unfold truthy.
      by apply String.eqb_neq in Hne as ->.
    + intros Hfalsy.
      assert (truthyName byPath = false) as -> by (by destruct Hfalsy as [-> | ->]).
      split.
      * intros d -> Hne. unfold truthy. by apply String.eqb_neq in Hne as ->.
      * intros Hd. destruct defaultProject as [[| | |d| |]|]; try done.
        by rewrite (Hd d eq_refl).
Qed.

(** C10. With more than one project and no project found by path, a
    [defaultProject] extension that is a non-empty string is returned as it
    is: nothing relates it to the declared projects, so it need not be one
    of them. *)
Theorem getProjectByCwd_default_unchecked w d :
  (1 < projects_size (projects (workspace w)))%nat ->
  getProjectByPath env w (process_cwd env) = None ->
  extensions (workspace w) !! "defaultProject" = Some (JStr d) ->
  d <> "" ->
  getProjectByCwd env w = Some d.
Proof.
  intros Hsize Hpath Hd Hne. unfold getProjectByCwd.
  assert ((projects_size (projects (workspace w)) =? 1)%nat = false) as ->
    by (apply Nat.eqb_neq; lia).
  rewrite Hpath, Hd. simpl. unfold truthy.
  by apply String.eqb_neq in Hne as ->.
Qed.
End CwdTheorems.

Lemma getProjectByCwd_cascade_witness :
  getProjectByCwd Examples.env Examples.single = Some "only"
  /\ isInside Examples.env Examples.single "elsewhere" (process_cwd Examples.env) = false.
Proof.
  split; [|by vm_compute].
  destruct (getProjectByCwd_cascade Examples.env Examples.single) as [H _].
  destruct H as (name & project & Heq & ->); [reflexivity|].
  vm_compute in Heq. by simplify_eq.
Defined.

Lemma getProjectByCwd_default_unchecked_witness :
  getProjectByCwd Examples.env Examples.ghostDefault = Some "ghost"
  /\ projects_get (projects (workspace Examples.ghostDefault)) "ghost" = None.
Proof.
  split; [|reflexivity].
  apply (getProjectByCwd_default_unchecked Examples.env Examples.ghostDefault "ghost").
  - vm_compute. lia.
  - by vm_compute.
  - by vm_compute.
  - discriminate.
Defined.

(** ** The global configuration file *)

#[local] Arguments NodePath.join : simpl never.
#[local] Arguments NodePath.resolve : simpl never.
#[local] Arguments NodePath.dirname : simpl never.
#[local] Arguments diskPath : simpl never.
#[local] Arguments xdgConfigHome : simpl never.
#[local] Arguments truthy : simpl never.
#[local] Arguments stripBOM : simpl never.
#[local] Arguments legacyCli : simpl never.
#[local] Arguments String.append : simpl never.
#[local] Arguments insert : simpl never.
#[local] Arguments lookup : simpl never.
#[local] Arguments singletonM : simpl never.
#[local] Arguments size : simpl never.
#[local] Arguments union : simpl never.

(** Unfolds the monad and the primitive effects. *)
Ltac run :=
  unfold mbind, mret, M_bind, M_ret, throw, existsSync, readFileSync,
    writeFileSync, findUpIO, cache_get, cache_set, readWorkspaceIO, log in *;
  simpl in *.

(** C2, on the code: with [XDG_CONFIG_HOME=/xdg], a global file in the
    application directory [/xdg/angular] is not found, one placed directly in
    [/xdg] is; without the variable the application directory
    [<home>/.config/angular] is the place looked at. *)
Lemma globalFilePath_XDG_CONFIG_HOME_without_app_dir :
  fst (globalFilePath Examples.envXdg (Examples.start Examples.diskXdgAppDir))
    = Return None
  /\ fst (globalFilePath Examples.envXdg (Examples.start Examples.diskXdgFlat))
    = Return (Some "/xdg/.angular-config.json")
  /\ fst (globalFilePath Examples.env (Examples.start Examples.diskXdgDefault))
    = Return (Some "/home/u/.config/angular/.angular-config.json").
Proof. by vm_compute. Qed.

Section DiskFacts.
Variable env : Env.
Variable lib : Collaborators.

Lemma exists_Some (m : gmap string string) k v :
  m !! k = Some v -> bool_decide (is_Some (m !! k)) = true.
Proof. intros ->. by apply bool_decide_eq_true_2. Qed.

Lemma exists_None (m : gmap string string) k :
  m !! k = None -> bool_decide (is_Some (m !! k)) = false.
Proof. intros ->. apply bool_decide_eq_false_2. by intros [? ?]. Qed.

(** [globalFilePath], run. *)
Lemma globalFilePath_eq st :
  globalFilePath env st =
  if truthy (os_homedir env) then
    let xdgConfig := xdgConfigHome env (os_homedir env) (Some globalFileName) in
    let p := NodePath.join [os_homedir env; globalFileName] in
    if bool_decide (is_Some (files st !! diskPath env xdgConfig))
    then (Return (Some xdgConfig), log (DiskExists xdgConfig) st)
    else if bool_decide (is_Some (files st !! diskPath env p))
    then (Return (Some p), log (DiskExists p) (log (DiskExists xdgConfig) st))
    else (Return None, log (DiskExists p) (log (DiskExists xdgConfig) st))
  else (Return None, st).
Proof.
  unfold globalFilePath. destruct (truthy (os_homedir env)); [|done]. run.
  destruct (bool_decide _); [done|]. by destruct (bool_decide _).
Qed.

(** [migrateLegacyGlobalConfig], run. *)
Lemma migrateLegacyGlobalConfig_eq st :
  migrateLegacyGlobalConfig env lib st =
  let legacyGlobalConfigPath := NodePath.join [os_homedir env; ".angular-cli.json"] in
  let globalPath := NodePath.join [os_homedir env; globalFileName] in
  if truthy (os_homedir env) then
    match files st !! diskPath env legacyGlobalConfigPath with
    | None => (Return false, log (DiskExists legacyGlobalConfigPath) st)
    | Some content =>
        let st1 := log (DiskRead legacyGlobalConfigPath)
                       (log (DiskExists legacyGlobalConfigPath) st) in
        match parseJson lib content with
        | None => (Throw JsonException, st1)
        | Some (JObj legacy) =>
            if (0 <? size (legacyCli legacy))%nat then
              (Return true,
               snd (writeFileSync env globalPath
                      (JSON_stringify lib
                         (JObj (<["version" := JNum 1]>
                                  {[ "cli" := JObj (legacyCli legacy) ]}))
                         (Some 2)) st1))
            else (Return false, st1)
        | Some _ => (Return false, st1)
        end
    end
  else (Return false, st).
Proof.
  unfold migrateLegacyGlobalConfig. destruct (truthy (os_homedir env)); [|done]. run.
  destruct (files st !! _) as [content|] eqn:Hfile.
  - rewrite bool_decide_eq_true_2 by eauto. simpl. rewrite Hfile.
    destruct (parseJson lib content) as [[| | | | |legacy]|]; try done.
    simpl. by destruct (0 <? size (legacyCli legacy))%nat.
  - rewrite bool_decide_eq_false_2; [done|]. by intros [? ?].
Qed.
End DiskFacts.

(** What [globalFilePath] returns, for every process and disk: null without
    a home directory; else the XDG file, which is looked for directly in
    [XDG_CONFIG_HOME] when that is set and in [<home>/.config/angular]
    otherwise, if it exists; else the file in the home directory if it
    exists; else null. *)
Lemma globalFilePath_outcome env st :
  let home := os_homedir env in
  let xdgConfig :=
    match env_XDG_CONFIG_HOME env with
    | Some x =>
        if truthy x then NodePath.join [x; globalFileName]
        else NodePath.join [NodePath.join [home; ".config"; "angular"]; globalFileName]
    | None => NodePath.join [NodePath.join [home; ".config"; "angular"]; globalFileName]
    end in
  let p := NodePath.join [home; globalFileName] in
  fst (globalFilePath env st)
  = Return (if truthy home then
              if bool_decide (is_Some (files st !! diskPath env xdgConfig))
              then Some xdgConfig
              else if bool_decide (is_Some (files st !! diskPath env p))
                   then Some p else None
            else None)
  /\ files (snd (globalFilePath env st)) = files st.
Proof.
  intros home xdgConfig p. rewrite globalFilePath_eq. fold home.
  destruct (truthy home); [|done].
  assert (xdgConfigHome env home (Some globalFileName) = xdgConfig) as ->.
  { unfold xdgConfigHome, xdgConfig. change (truthy globalFileName) with true.
    by destruct (env_XDG_CONFIG_HOME env) as [x|]; [destruct (truthy x)|]. }
  cbv zeta. fold p.
  destruct (bool_decide _); [done|]. by destruct (bool_decide _).
Qed.

(** ** Migration of the legacy global file *)

Lemma legacyPackageManager_Some legacy pm :
  legacyPackageManager legacy = Some pm <->
  legacy !! "packageManager" = Some (JStr pm) /\ pm <> "" /\ pm <> "default".
Proof.
  unfold legacyPackageManager, truthy.
  destruct (legacy !! "packageManager") as [[| | |s| |]|]; try (split; [done|by intros [? _]]).
  destruct (String.eqb_spec s ""), (String.eqb_spec s "default"); simpl; split;
    try done; try (intros [[= ->] [? ?]]; done).
  by intros [= ->].
Qed.

Lemma withDefaultCollection_other legacy cli k :
  k <> "defaultCollection" -> withDefaultCollection legacy cli !! k = cli !! k.
Proof.
  intros Hk. unfold withDefaultCollection.
  repeat case_match; try done. by rewrite lookup_insert_ne.
Qed.

Lemma withWarnings_other legacy cli k :
  k <> "warnings" -> withWarnings legacy cli !! k = cli !! k.
Proof.
  intros Hk. unfold withWarnings.
  destruct (isJsonObject (legacy !! "warnings")) as [legacyWarnings|]; [|done].
  destruct (0 <? size _)%nat; [|done].
  by rewrite lookup_insert_ne.
Qed.

Lemma legacyCli_packageManager legacy :
  legacyCli legacy !! "packageManager" = JStr <$> legacyPackageManager legacy.
Proof.
  unfold legacyCli.
  rewrite withWarnings_other, withDefaultCollection_other by done.
  unfold withPackageManager. destruct (legacyPackageManager legacy); simpl; [|done].
  apply lookup_insert_eq.
Qed.

Lemma legacyCli_packageManager_iff legacy v :
  legacyCli legacy !! "packageManager" = Some v <->
  exists pm, v = JStr pm /\ legacy !! "packageManager" = Some (JStr pm)
             /\ pm <> "" /\ pm <> "default".
Proof.
  rewrite legacyCli_packageManager. split.
  - destruct (legacyPackageManager legacy) as [pm|] eqn:Hpm; [|done].
    intros [= <-]. exists pm. split; [done|]. by apply legacyPackageManager_Some.
  - intros (pm & -> & H). apply legacyPackageManager_Some in H. by rewrite H.
Qed.

Section MigrationTheorems.
Variable env : Env.
Variable lib : Collaborators.

(** C3 (as amended). [migrateLegacyGlobalConfig] returns true, and then has
    written the new-format file [{version: 1, cli}] printed with indentation
    2, if and only if the legacy file exists, parses to an object and the
    [cli] object extracted from it has a key; [packageManager] is a key of
    it only for a non-empty string other than "default". When the legacy
    file is absent or parses and the result is not true, it returns false
    and writes nothing. When the legacy file does not parse, the parser's
    exception is thrown, and nothing is written. *)
Theorem migrateLegacyGlobalConfig_outcome st :
  let legacyGlobalConfigPath := NodePath.join [os_homedir env; ".angular-cli.json"] in
  let globalPath := NodePath.join [os_homedir env; globalFileName] in
  let content :=
    if truthy (os_homedir env)
    then files st !! diskPath env legacyGlobalConfigPath else None in
  let out := migrateLegacyGlobalConfig env lib st in
  (fst out = Return true <->
     exists c legacy, content = Some c /\ parseJson lib c = Some (JObj legacy)
                      /\ legacyCli legacy <> ∅)
  /\ (forall c legacy,
        content = Some c -> parseJson lib c = Some (JObj legacy) ->
        legacyCli legacy <> ∅ ->
        files (snd out) =
          <[diskPath env globalPath :=
              JSON_stringify lib
                (JObj (<["version" := JNum 1]> {[ "cli" := JObj (legacyCli legacy) ]}))
                (Some 2)]> (files st))
  /\ ((forall c, content = Some c -> parseJson lib c <> None) ->
      fst out <> Return true ->
      fst out = Return false /\ files (snd out) = files st)
  /\ (forall c, content = Some c -> parseJson lib c = None ->
        fst out = Throw JsonException /\ files (snd out) = files st)
  /\ (forall legacy v,
        legacyCli legacy !! "packageManager" = Some v <->
        exists pm, v = JStr pm /\ legacy !! "packageManager" = Some (JStr pm)
                   /\ pm <> "" /\ pm <> "default").
Proof.
  intros legacyGlobalConfigPath globalPath content out.
  assert (forall m : gmap string JsonValue, (0 <? size m)%nat = true <-> m <> ∅) as Hsize.
  { intros m. rewrite Nat.ltb_lt. rewrite <- map_size_non_empty_iff. lia. }
  unfold out, content. rewrite migrateLegacyGlobalConfig_eq.
  fold legacyGlobalConfigPath globalPath.
  split_and!; try apply legacyCli_packageManager_iff.
  all: destruct (truthy (os_homedir env)); simpl;
    [destruct (files st !! diskPath env legacyGlobalConfigPath) as [c|] eqn:Hfile;
      simpl;
      [destruct (parseJson lib c) as [[| | | | |legacy]|] eqn:Hparse; simpl;
        [| | | | |destruct (0 <? size (legacyCli legacy))%nat eqn:Hcli; simpl|]|]|].
  all: try (apply Hsize in Hcli).
  all: try (assert (legacyCli legacy = ∅) as Hempty
              by (destruct (decide (legacyCli legacy = ∅)) as [|Hne];
                  [done|apply Hsize in Hne; congruence])).
  all: try done.
  all: try (split; [by intros|]; intros; repeat destruct_and?; simplify_eq; done).
  all: try (intros; simplify_eq; done).
  all: try (split; [intros _; by exists c, legacy
                   |intros (c0 & l0 & [= <-] & Hp & Hne); congruence]).
  all: try (split; [by intros [=]|];
            intros (c0 & l0 & ? & Hp & Hne); simplify_eq; done).
  intros Hp _. by destruct (Hp c eq_refl).
Qed.
End MigrationTheorems.

(** C3, the claim as written fails: a legacy file that does not parse makes
    [migrateLegacyGlobalConfig] throw; it does not return false. *)
Lemma migrateLegacyGlobalConfig_malformed_throws :
  Model.parseJson "{" = None
  /\ fst (migrateLegacyGlobalConfig Examples.env (Model.lib Examples.env)
            (Examples.start Examples.diskLegacyMalformed))
     = Throw JsonException.
Proof. by vm_compute. Qed.

Lemma migrateLegacyGlobalConfig_outcome_witness :
  fst (migrateLegacyGlobalConfig Examples.env (Model.lib Examples.env)
         (Examples.start Examples.diskLegacyNpm)) = Return true.
Proof.
  destruct (migrateLegacyGlobalConfig_outcome Examples.env (Model.lib Examples.env)
              (Examples.start Examples.diskLegacyNpm)) as [H _].
  apply H.
  exists (Examples.json "{'packageManager':'npm'}"), {[ "packageManager" := JStr "npm" ]}.
  split; [by vm_compute|]. split; [by vm_compute|].
  intros Hempty. by vm_compute in Hempty.
Defined.

(** A legacy file with [packageManager: "npm"] is migrated to
    [cli: {packageManager: "npm"}]. *)
Example migrateLegacyGlobalConfig_npm :
  let out := migrateLegacyGlobalConfig Examples.env (Model.lib Examples.env)
               (Examples.start Examples.diskLegacyNpm) in
  fst out = Return true
  /\ (Model.parseJson <$> files (snd out) !! "/home/u/.angular-config.json")
     = Some (Some (JObj (<["version" := JNum 1]>
                           {[ "cli" := JObj {[ "packageManager" := JStr "npm" ]} ]}))).
Proof. by vm_compute. Qed.

(** A legacy file with [packageManager: "default"] is not migrated. *)
Example migrateLegacyGlobalConfig_default :
  let out := migrateLegacyGlobalConfig Examples.env (Model.lib Examples.env)
               (Examples.start Examples.diskLegacyDefault) in
  fst out = Return false /\ files (snd out) = Examples.diskLegacyDefault.
Proof. by vm_compute. Qed.

(** ** The raw global document *)

Lemma normalize_truthy path : truthy (NodePath.normalize path) = true.
Proof.
  unfold NodePath.normalize, truthy.
  destruct (String.eqb path ""); [done|].
  destruct (String.eqb_spec (NodePath.normalizeString path
                               (negb (NodePath.startsWithSlash path))) "") as [|Hne].
  - by repeat case_match.
  - destruct (NodePath.normalizeString path _) as [|c p]; [done|].
    by repeat case_match.
Qed.

Lemma join_truthy args : truthy (NodePath.join args) = true.
Proof.
  unfold NodePath.join. destruct (filter _ args); [done|]. apply normalize_truthy.
Qed.

Lemma xdgConfigHome_truthy env home :
  truthy (xdgConfigHome env home (Some globalFileName)) = true.
Proof. unfold xdgConfigHome. change (truthy globalFileName) with true. apply join_truthy. Qed.

Section RawTheorems.
Variable env : Env.
Variable lib : Collaborators.

(** [readRaw] of a file that parses to an object. *)
Lemma readRaw_object st configPath data props :
  files st !! diskPath env configPath = Some data ->
  parseJsonAst lib (stripBOM data) = Some (AstObj props) ->
  readRaw env lib configPath st
  = (Return (Some (AstObj props), Some configPath), log (DiskRead configPath) st).
Proof. intros Hfile Hparse. unfold readRaw. run. by rewrite Hfile, Hparse. Qed.

(** C9 (as amended). Given a home directory, no file at the XDG location,
    and a parser that reads the printed [{version: 1}] as an object whose
    [version] is 1: after [createGlobalSettings], [getWorkspaceRaw('global')]
    returns such an object, read from the file just written; and when the
    home-directory file is absent too, [getWorkspaceRaw('global')] itself
    writes that file and returns the object read from it, not null. *)
Theorem createGlobalSettings_getWorkspaceRaw_roundtrip st :
  let globalPath := NodePath.join [os_homedir env; globalFileName] in
  let xdgConfig := xdgConfigHome env (os_homedir env) (Some globalFileName) in
  let text := JSON_stringify lib (JObj {[ "version" := JNum 1 ]}) None in
  truthy (os_homedir env) = true ->
  files st !! diskPath env xdgConfig = None ->
  (exists props, parseJsonAst lib (stripBOM text) = Some (AstObj props)
                 /\ property "version" props = Some (AstNum 1)) ->
  (exists st1 props path,
      createGlobalSettings env lib st = (Return globalPath, st1)
      /\ files st1 = <[diskPath env globalPath := text]> (files st)
      /\ fst (getWorkspaceRaw env lib global st1)
         = Return (Some (AstObj props), Some path)
      /\ property "version" props = Some (AstNum 1)
      /\ diskPath env path = diskPath env globalPath)
  /\ (files st !! diskPath env globalPath = None ->
      exists props,
        fst (getWorkspaceRaw env lib global st)
        = Return (Some (AstObj props), Some globalPath)
        /\ property "version" props = Some (AstNum 1)
        /\ files (snd (getWorkspaceRaw env lib global st))
           = <[diskPath env globalPath := text]> (files st)).
Proof.
  intros globalPath xdgConfig text Hhome Hxdg (props & Hparse & Hversion).
  split.
  - set (st1 := {| files := <[diskPath env globalPath := text]> (files st);
                   cachedWorkspaces := cachedWorkspaces st;
                   trace := DiskWrite globalPath text :: trace st |}).
    assert (createGlobalSettings env lib st = (Return globalPath, st1)) as Hcreate.
    { unfold createGlobalSettings. rewrite Hhome. simpl. by run. }
    assert (exists path,
               fst (getWorkspaceRaw env lib global st1)
               = Return (Some (AstObj props), Some path)
               /\ diskPath env path = diskPath env globalPath) as (path & Hraw & Hpath).
    { unfold getWorkspaceRaw. unfold mbind at 1, M_bind.
      rewrite globalFilePath_eq, Hhome. cbn [files st1].
      fold globalPath xdgConfig text.
      destruct (decide (diskPath env xdgConfig = diskPath env globalPath)) as [Heq|Hne].
      - exists xdgConfig. split; [|done].
        rewrite Heq, lookup_insert_eq. rewrite bool_decide_eq_true_2 by eauto.
        simpl.
        replace (truthy xdgConfig) with true by (symmetry; apply xdgConfigHome_truthy).
        simpl. erewrite readRaw_object; [done| |done].
        simpl. by rewrite Heq, lookup_insert_eq.
      - exists globalPath. split; [|done].
        rewrite lookup_insert_ne by done. rewrite Hxdg.
        rewrite bool_decide_eq_false_2 by (by intros [? ?]).
        rewrite lookup_insert_eq. rewrite bool_decide_eq_true_2 by eauto.
        simpl.
        replace (truthy globalPath) with true by (symmetry; apply join_truthy).
        simpl. erewrite readRaw_object; [done| |done].
        simpl. by rewrite lookup_insert_eq. }
    by exists st1, props, path.
  - intros Hglobal. exists props.
    assert (exists st2,
               getWorkspaceRaw env lib global st
               = (Return (Some (AstObj props), Some globalPath), st2)
               /\ files st2 = <[diskPath env globalPath := text]> (files st))
      as (st2 & -> & Hfiles); [|done].
    unfold getWorkspaceRaw. unfold mbind at 1, M_bind.
    rewrite globalFilePath_eq, Hhome. cbn zeta. fold globalPath xdgConfig.
    rewrite Hxdg, Hglobal.
    rewrite !bool_decide_eq_false_2 by (by intros [? ?]).
    simpl. unfold createGlobalSettings. rewrite Hhome. simpl.
    unfold mbind at 1, M_bind. unfold mbind at 1, M_bind. unfold writeFileSync at 1.
    unfold mret, M_ret. fold globalPath text.
    erewrite readRaw_object; [by eexists| |done].
    simpl. by rewrite lookup_insert_eq.
Qed.
End RawTheorems.

(** C9, the claim as written fails: with a global file at the XDG location,
    here of version 2, [createGlobalSettings] writes the home-directory file
    and [getWorkspaceRaw('global')] then reads the XDG one, whose [version]
    is not 1. *)
Lemma getWorkspaceRaw_after_createGlobalSettings_reads_xdg_file :
  let lib := Model.lib Examples.env in
  let created := createGlobalSettings Examples.env lib
                   (Examples.start Examples.diskXdgDefault) in
  fst created = Return "/home/u/.angular-config.json"
  /\ files (snd created) !! "/home/u/.angular-config.json" = Some (Examples.json "{'version':1}")
  /\ fst (getWorkspaceRaw Examples.env lib global (snd created))
     = Return (Some (AstObj [("version", AstNum 2)]),
               Some "/home/u/.config/angular/.angular-config.json").
Proof. by vm_compute. Qed.

Lemma createGlobalSettings_getWorkspaceRaw_roundtrip_witness :
  exists props,
    fst (getWorkspaceRaw Examples.env (Model.lib Examples.env) global (Examples.start ∅))
    = Return (Some (AstObj props), Some "/home/u/.angular-config.json")
    /\ property "version" props = Some (AstNum 1).
Proof.
  destruct (createGlobalSettings_getWorkspaceRaw_roundtrip
              Examples.env (Model.lib Examples.env) (Examples.start ∅))
    as [_ H].
  - reflexivity.
  - by vm_compute.
  - exists [("version", AstNum 1)]. by vm_compute.
  - destruct H as (props & H1 & H2 & _); [by vm_compute|].
    exists props. split; [exact H1|exact H2].
Defined.

(** ** The scope cache *)

Lemma levelName_inj l1 l2 : levelName l1 = levelName l2 -> l1 = l2.
Proof. by destruct l1, l2. Qed.

Lemma countCacheSet_cons_other level e events :
  isCacheSet level e = false ->
  countCacheSet level (e :: events) = countCacheSet level events.
Proof. intros H. unfold countCacheSet. simpl. by rewrite H. Qed.

Lemma countCacheSet_cons_set lvl level events :
  countCacheSet lvl (CacheSet (levelName level) :: events)
  = if decide (lvl = level) then S (countCacheSet lvl events)
    else countCacheSet lvl events.
Proof. unfold countCacheSet. simpl. by destruct lvl, level. Qed.

Lemma countCacheSet_app_disk lvl events events' :
  countCacheSet lvl (List.filter isDiskEvent events ++ events')
  = countCacheSet lvl events'.
Proof.
  unfold countCacheSet. rewrite List.filter_app, List.length_app.
  replace (List.filter (isCacheSet lvl) (List.filter isDiskEvent events)) with (@nil Event);
    [done|].
  induction events as [|e events IH]; simpl; [done|]. by destruct e.
Qed.

Lemma cacheWrites_log level e st :
  isCacheSet level e = false -> cacheWrites level (log e st) = cacheWrites level st.
Proof. intros H. unfold cacheWrites, log. simpl. by apply countCacheSet_cons_other. Qed.

#[local] Arguments countCacheSet : simpl never.

Create HintDb quiet.

Lemma quiet_ret {A} (a : A) : quiet (mret a).
Proof. intros st. split; [by exists a|done]. Qed.

Lemma quiet_bind {A B} (m : M A) (k : A -> M B) :
  quiet m -> (forall a, quiet (k a)) -> quiet (m ≫= k).
Proof.
  intros Hm Hk st. destruct (Hm st) as ([a Ha] & Hc & Hw).
  unfold mbind, M_bind. destruct (m st) as [[a'|e] st'] eqn:Hrun; simplify_eq/=.
  destruct (Hk a st') as (Hr' & Hc' & Hw'). split; [done|]. split.
  - by rewrite Hc'.
  - intros level. by rewrite Hw'.
Qed.

Lemma quiet_log_disk {A} (f : State -> A) (e : Event) :
  isDiskEvent e = true -> quiet (fun st => (Return (f st), log e st)).
Proof.
  intros He st. split; [by eexists|]. split; [done|].
  intros level. apply cacheWrites_log. by destruct e.
Qed.

Lemma quiet_existsSync env p : quiet (existsSync env p).
Proof. by apply (quiet_log_disk _ (DiskExists p)). Qed.

Lemma quiet_findUpIO lib names from : quiet (findUpIO lib names from).
Proof. by apply (quiet_log_disk _ (DiskFindUp names from)). Qed.

#[local] Hint Resolve quiet_ret quiet_bind quiet_existsSync quiet_findUpIO : quiet.

Lemma quiet_orElse a b : quiet b -> quiet (orElse a b).
Proof. intros Hb. unfold orElse. destruct (truthyName a); auto with quiet. Qed.

#[local] Hint Resolve quiet_orElse : quiet.

Lemma quiet_projectFilePath env lib projectPath : quiet (projectFilePath env lib projectPath).
Proof.
  unfold projectFilePath. apply quiet_bind.
  - destruct (truthyName projectPath); auto with quiet.
  - intros first. auto 10 with quiet.
Qed.

Lemma quiet_globalFilePath env : quiet (globalFilePath env).
Proof.
  unfold globalFilePath. destruct (negb _); [auto with quiet|].
  apply quiet_bind; [auto with quiet|]. intros [|]; [auto with quiet|].
  apply quiet_bind; [auto with quiet|]. intros [|]; auto with quiet.
Qed.

#[local] Hint Resolve quiet_projectFilePath quiet_globalFilePath : quiet.

Section CacheFacts.
Variable env : Env.
Variable lib : Collaborators.

(** A cached level is answered from the cache: nothing is read, nothing
    is written, whatever the disk holds. *)
Lemma getWorkspace_begin_cached level st v :
  cachedWorkspaces st !! levelName level = Some v ->
  getWorkspace_begin env lib level st = (Return (Settled v), st).
Proof. intros H. unfold getWorkspace_begin. run. by rewrite H. Qed.

Lemma getWorkspace_cached level st v :
  cachedWorkspaces st !! levelName level = Some v ->
  getWorkspace env lib level st = (Return v, st).
Proof.
  intros H. unfold getWorkspace. unfold mbind at 1, M_bind.
  by rewrite (getWorkspace_begin_cached _ _ _ H).
Qed.

(** A level that is not cached: the call either finds no file, caches null
    and returns it, or stops at its [await] with the cache as it was. *)
Lemma getWorkspace_begin_uncached level st :
  cachedWorkspaces st !! levelName level = None ->
  exists st1,
    cachedWorkspaces st1 = cachedWorkspaces st
    /\ (forall lvl, cacheWrites lvl st1 = cacheWrites lvl st)
    /\ ((exists configPath,
           getWorkspace_begin env lib level st = (Return (Awaiting configPath), st1))
        \/ getWorkspace_begin env lib level st
           = (Return (Settled None),
              {| files := files st1;
                 cachedWorkspaces := <[levelName level := None]> (cachedWorkspaces st1);
                 trace := CacheSet (levelName level) :: trace st1 |})).
Proof.
  intros H.
  set (m := match level with
            | local => projectFilePath env lib None
            | global => globalFilePath env
            end).
  assert (quiet m) as Hquiet by (unfold m; destruct level; auto with quiet).
  destruct (Hquiet st) as ([configPath Hret] & Hc & Hw).
  destruct (m st) as [r st1] eqn:Hrun. simpl in *. subst r.
  exists st1. split; [done|]. split; [done|].
  unfold getWorkspace_begin, mbind, M_bind, cache_get, cache_set, mret, M_ret.
  rewrite H. fold m. rewrite Hrun.
  destruct (truthyName configPath); simpl.
  - left. by eexists.
  - by right.
Qed.

(** The continuation: one disk read, then one write of the cache, or the
    wrapped error and no write. *)
Lemma getWorkspace_resume_cases level configPath st :
  (exists ws,
      readWorkspace lib configPath (files st) = inr ws
      /\ getWorkspace_resume lib level configPath st
         = (Return (Some {| workspace := ws; filePath := configPath |}),
            {| files := files st;
               cachedWorkspaces :=
                 <[levelName level := Some {| workspace := ws; filePath := configPath |}]>
                   (cachedWorkspaces st);
               trace := CacheSet (levelName level) :: DiskRead configPath :: trace st |}))
  \/ (exists e,
         getWorkspace_resume lib level configPath st = (Throw e, log (DiskRead configPath) st)).
Proof.
  unfold getWorkspace_resume. run.
  destruct (readWorkspace lib configPath (files st)) as [message|ws].
  - right. by eexists.
  - left. by exists ws.
Qed.

(** A call that returns has left its result in the cache. *)
Lemma getWorkspace_caches level st v st' :
  getWorkspace env lib level st = (Return v, st') ->
  cachedWorkspaces st' !! levelName level = Some v.
Proof.
  unfold getWorkspace. unfold mbind at 1, M_bind.
  destruct (cachedWorkspaces st !! levelName level) as [c|] eqn:Hc.
  - rewrite (getWorkspace_begin_cached _ _ _ Hc). by intros [= <- <-].
  - destruct (getWorkspace_begin_uncached _ _ Hc) as (st1 & _ & _ & [[p ->]| ->]).
    + destruct (getWorkspace_resume_cases level p st1)
        as [(ws & _ & ->)|(e & ->)]; [|done].
      intros [= <- <-]. simpl. apply lookup_insert_eq.
    + intros [= <- <-]. simpl. apply lookup_insert_eq.
Qed.
End CacheFacts.

Lemma delete_lookup_split {A} (l : list A) n x :
  l !! n = Some x -> exists l1 l2, l = l1 ++ x :: l2 /\ delete n l = l1 ++ l2.
Proof.
  intros H. exists (take n l), (drop (S n) l). split.
  - symmetry. by apply take_drop_middle.
  - apply delete_take_drop.
Qed.

Section LoopFacts.
Variable env : Env.
Variable lib : Collaborators.

Lemma cacheInvariant_turn l t :
  cacheInvariant l -> admissible l t -> cacheInvariant (turn env lib l t).
Proof.
  unfold cacheInvariant, cacheWrites.
  intros [Hnd Hinv] Hadm. destruct t as [level|n|disk events]; simpl in *.
  - destruct (cachedWorkspaces (process l) !! levelName level) as [v|] eqn:Hc.
    { rewrite (getWorkspace_begin_cached _ _ _ _ _ Hc). by split. }
    destruct (getWorkspace_begin_uncached env lib _ _ Hc)
      as (st1 & Hc1 & Hw1 & [[p ->]| ->]); unfold cacheWrites in Hw1; simpl.
    + split.
      * rewrite fmap_app. simpl. apply NoDup_app. split; [done|].
        split; [|apply NoDup_singleton].
        intros x Hx Hx'. apply list_elem_of_singleton in Hx' as ->. done.
      * intros lvl. rewrite Hw1, Hc1. split; [apply Hinv|].
        rewrite fmap_app. simpl. intros Hin. apply elem_of_app in Hin as [Hin|Hin].
        -- by apply Hinv.
        -- by apply list_elem_of_singleton in Hin as ->.
    + split; [done|]. intros lvl. rewrite countCacheSet_cons_set, Hw1, Hc1.
      destruct (decide (lvl = level)) as [->|Hne].
      * rewrite lookup_insert_eq. destruct (Hinv level) as [-> _]. rewrite Hc.
        split; [done|]. intros Hin. done.
      * rewrite lookup_insert_ne by (intros Heq; by apply levelName_inj in Heq).
        apply Hinv.
  - destruct (waiting l !! n) as [[level p]|] eqn:Hn; [|by split]. simpl.
    assert (level ∈ (waiting l).*1) as Hlevel.
    { apply list_elem_of_fmap. exists (level, p). split; [done|].
      by eapply list_elem_of_lookup_2. }
    assert (cachedWorkspaces (process l) !! levelName level = None) as Hc
      by (by apply Hinv).
    assert (NoDup (delete n (waiting l)).*1
            /\ (forall lvl, lvl ∈ (delete n (waiting l)).*1 ->
                            lvl ∈ (waiting l).*1 /\ lvl <> level)) as [Hnd' Hsub].
    { destruct (delete_lookup_split _ _ _ Hn) as (l1 & l2 & Heq & ->).
      rewrite Heq in Hnd |- *. rewrite !fmap_app in *. simpl in *.
      apply NoDup_app in Hnd as (Hnd1 & Hdisj & Hnd2).
      apply NoDup_cons in Hnd2 as [Hnot Hnd2]. split.
      - apply NoDup_app. split; [done|]. split; [|done].
        intros x Hx Hx'. apply (Hdisj x Hx). by right.
      - intros lvl Hin. apply elem_of_app in Hin as [Hin|Hin].
        + split; [apply elem_of_app; by left|].
          intros ->. apply (Hdisj level Hin). by left.
        + split; [apply elem_of_app; right; by right|]. by intros ->. }
    destruct (getWorkspace_resume_cases lib level p (process l))
      as [(ws & _ & ->)|(e & ->)]; simpl.
    + split; [done|]. intros lvl.
      rewrite countCacheSet_cons_set, countCacheSet_cons_other by done.
      destruct (decide (lvl = level)) as [->|Hne].
      * rewrite lookup_insert_eq. split.
        -- destruct (Hinv level) as [-> _]. by rewrite Hc.
        -- intros Hin. by destruct (Hsub _ Hin).
      * rewrite lookup_insert_ne by (intros Heq; by apply levelName_inj in Heq).
        split; [apply Hinv|]. intros Hin. apply Hinv. by apply Hsub.
    + split; [done|]. intros lvl. rewrite countCacheSet_cons_other by done.
      split; [apply Hinv|]. intros Hin. apply Hinv. by apply Hsub.
  - split; [done|]. intros lvl. rewrite countCacheSet_app_disk. apply Hinv.
Qed.

Lemma cached_turn l t level v :
  cacheInvariant l ->
  cachedWorkspaces (process l) !! levelName level = Some v ->
  cachedWorkspaces (process (turn env lib l t)) !! levelName level = Some v.
Proof.
  intros [Hnd Hinv] Hv. destruct t as [lvl|n|disk events]; simpl; [| |done].
  - destruct (cachedWorkspaces (process l) !! levelName lvl) as [c|] eqn:Hc.
    { by rewrite (getWorkspace_begin_cached _ _ _ _ _ Hc). }
    assert (lvl <> level) as Hne by (intros ->; congruence).
    destruct (getWorkspace_begin_uncached env lib _ _ Hc)
      as (st1 & Hc1 & Hw1 & [[p ->]| ->]); simpl; rewrite Hc1; [done|].
    by rewrite lookup_insert_ne by (intros Heq; by apply levelName_inj in Heq).
  - destruct (waiting l !! n) as [[lvl p]|] eqn:Hn; [|done]. simpl.
    assert (cachedWorkspaces (process l) !! levelName lvl = None) as Hc.
    { apply Hinv. apply list_elem_of_fmap. exists (lvl, p). split; [done|].
      by eapply list_elem_of_lookup_2. }
    assert (lvl <> level) as Hne by (intros ->; congruence).
    destruct (getWorkspace_resume_cases lib lvl p (process l))
      as [(ws & _ & ->)|(e & ->)]; simpl; [|done].
    by rewrite lookup_insert_ne by (intros Heq; by apply levelName_inj in Heq).
Qed.

Lemma cacheInvariant_turns ts : forall l,
  cacheInvariant l -> nonOverlapping env lib l ts ->
  cacheInvariant (turns env lib l ts)
  /\ (forall level v,
        cachedWorkspaces (process l) !! levelName level = Some v ->
        cachedWorkspaces (process (turns env lib l ts)) !! levelName level = Some v).
Proof.
  induction ts as [|t ts IH]; intros l Hinv Hno; simpl in *; [done|].
  destruct Hno as [Hadm Hno].
  destruct (IH (turn env lib l t)) as [Hinv' Hkeep];
    [by apply cacheInvariant_turn|done|].
  split; [done|]. intros level v Hv. apply Hkeep. by apply cached_turn.
Qed.

Lemma cacheInvariant_boot fs : cacheInvariant (boot fs).
Proof. split; [constructor|]. intros level. split; [done|]. intros H. inversion H. Qed.
End LoopFacts.

(** ** The other functions and the cache *)

(** The functions of the module other than [getWorkspace] and its callers
    act on the disk only: in the turn-by-turn account they are code that
    runs [Elsewhere]. *)

Lemma leavesCache_ret {A} (a : A) : leavesCache (mret a).
Proof. by intros st. Qed.

Lemma leavesCache_throw {A} e : leavesCache (@throw A e).
Proof. by intros st. Qed.

Lemma leavesCache_bind {A B} (m : M A) (k : A -> M B) :
  leavesCache m -> (forall a, leavesCache (k a)) -> leavesCache (m ≫= k).
Proof.
  intros Hm Hk st. destruct (Hm st) as [Hc Hw].
  unfold mbind, M_bind. destruct (m st) as [[a|e] st'] eqn:Hrun; simpl in *; [|done].
  destruct (Hk a st') as [Hc' Hw']. split.
  - by rewrite Hc'.
  - intros level. by rewrite Hw'.
Qed.

Lemma leavesCache_quiet {A} (m : M A) : quiet m -> leavesCache m.
Proof. intros H st. by destruct (H st) as (_ & ? & ?). Qed.

Lemma leavesCache_readFileSync env p : leavesCache (readFileSync env p).
Proof.
  intros st. unfold readFileSync.
  destruct (files st !! diskPath env p); (split; [done|]);
    intros level; by apply cacheWrites_log.
Qed.

Lemma leavesCache_writeFileSync env p data : leavesCache (writeFileSync env p data).
Proof.
  intros st. split; [done|]. intros level. unfold cacheWrites. simpl.
  by apply countCacheSet_cons_other.
Qed.

#[local] Hint Resolve leavesCache_ret leavesCache_throw leavesCache_bind
  leavesCache_readFileSync leavesCache_writeFileSync leavesCache_quiet : quiet.

Section OtherFunctions.
Variable env : Env.
Variable lib : Collaborators.

Lemma leavesCache_createGlobalSettings : leavesCache (createGlobalSettings env lib).
Proof. unfold createGlobalSettings. destruct (negb _); auto with quiet. Qed.

Lemma leavesCache_readRaw configPath : leavesCache (readRaw env lib configPath).
Proof.
  unfold readRaw. apply leavesCache_bind; [auto with quiet|]. intros data.
  destruct (parseJsonAst lib (stripBOM data)) as [[]|]; auto with quiet.
Qed.

Lemma leavesCache_getWorkspaceRaw level : leavesCache (getWorkspaceRaw env lib level).
Proof.
  unfold getWorkspaceRaw. apply leavesCache_bind.
  - destruct level; auto with quiet.
  - intros configPath. destruct (negb _); [|apply leavesCache_readRaw].
    destruct level; [auto with quiet|].
    apply leavesCache_bind; [apply leavesCache_createGlobalSettings|].
    intros p. apply leavesCache_readRaw.
Qed.

Lemma leavesCache_migrateLegacyGlobalConfig :
  leavesCache (migrateLegacyGlobalConfig env lib).
Proof.
  unfold migrateLegacyGlobalConfig. destruct (truthy _); [|auto with quiet].
  apply leavesCache_bind; [auto with quiet|]. intros [|]; [|auto with quiet].
  apply leavesCache_bind; [auto with quiet|]. intros content.
  destruct (parseJson lib content) as [[| | | | |legacy]|]; simpl; auto with quiet.
  destruct (0 <? size (legacyCli legacy))%nat; auto with quiet.
Qed.

Lemma leavesCache_getLegacyPackageManager :
  leavesCache (getLegacyPackageManager env lib).
Proof.
  unfold getLegacyPackageManager. destruct (truthy _); [|auto with quiet].
  apply leavesCache_bind; [auto with quiet|]. intros [|]; [|auto with quiet].
  apply leavesCache_bind; [auto with quiet|]. intros content.
  destruct (parseJson lib content) as [[| | | | |legacy]|]; simpl; auto with quiet.
Qed.

(** Such a function run between two turns keeps what holds of the cache. *)
Lemma cacheInvariant_leavesCache {A} (m : M A) l :
  leavesCache m -> cacheInvariant l ->
  cacheInvariant {| process := snd (m (process l)); waiting := waiting l |}.
Proof.
  intros Hm [Hnd Hinv]. destruct (Hm (process l)) as [Hc Hw].
  split; simpl; [done|]. intros level. rewrite Hw, Hc. apply Hinv.
Qed.
End OtherFunctions.

Section CacheTheorems.
Variable env : Env.
Variable lib : Collaborators.

(** C8 (as amended). In a process where no call of [getWorkspace] for a
    level begins while another call for that level waits at its [await]:
    the cache is written at most once for each level; a call that returns
    has left its result, a workspace or null, in the cache; and once a
    level is in the cache, every later call for it returns the cached value
    and leaves the process as it is (no disk access, no cache write),
    whatever has happened to the disk in between. *)
Theorem getWorkspace_first_lookup_wins fs ts :
  nonOverlapping env lib (boot fs) ts ->
  let l := turns env lib (boot fs) ts in
  forall level,
    (cacheWrites level (process l) <= 1)%nat
    /\ (forall st v st',
          getWorkspace env lib level st = (Return v, st') ->
          cachedWorkspaces st' !! levelName level = Some v)
    /\ (forall v,
          cachedWorkspaces (process l) !! levelName level = Some v ->
          forall ts', nonOverlapping env lib l ts' ->
            let l' := turns env lib l ts' in
            getWorkspace env lib level (process l') = (Return v, process l')
            /\ turn env lib l' (Invoke level) = l'
            /\ cacheWrites level (process l') = 1%nat).
Proof.
  intros Hno l level.
  destruct (cacheInvariant_turns env lib ts (boot fs)) as [Hinv _];
    [apply cacheInvariant_boot|done|]. fold l in Hinv.
  split; [|split].
  - destruct Hinv as [_ Hinv]. destruct (Hinv level) as [-> _].
    destruct (cachedWorkspaces _ !! _); lia.
  - apply getWorkspace_caches.
  - intros v Hv ts' Hno' l'.
    destruct (cacheInvariant_turns env lib ts' l Hinv Hno') as [Hinv' Hkeep].
    specialize (Hkeep _ _ Hv). fold l' in Hinv', Hkeep.
    split; [by apply getWorkspace_cached|]. split.
    + simpl. rewrite (getWorkspace_begin_cached _ _ _ _ _ Hkeep). by destruct l'.
    + destruct Hinv' as [_ Hinv']. destruct (Hinv' level) as [-> _]. by rewrite Hkeep.
Qed.
End CacheTheorems.

(** C8, the claim as written fails: when a second call of
    [getWorkspace('global')] begins while the first waits for its read, both
    read the file and both write the cache. *)
Lemma getWorkspace_overlapping_calls_write_twice :
  let l := turns Examples.env (Model.lib Examples.env)
             (boot Examples.diskGlobal) Examples.overlapping in
  cacheWrites global (process l) = 2%nat
  /\ trace (process l)
     = [CacheSet "global"; DiskRead "/home/u/.angular-config.json";
        CacheSet "global"; DiskRead "/home/u/.angular-config.json";
        DiskExists "/home/u/.angular-config.json";
        DiskExists "/home/u/.config/angular/.angular-config.json";
        DiskExists "/home/u/.angular-config.json";
        DiskExists "/home/u/.config/angular/.angular-config.json"].
Proof. by vm_compute. Qed.

(** A level resolved to null stays null: the file that appears later is
    found by [globalFilePath] and not looked for by [getWorkspace]. *)
Example getWorkspace_null_is_cached :
  let lib := Model.lib Examples.env in
  let l := turns Examples.env lib (boot ∅)
             [Invoke global; Elsewhere Examples.diskGlobal []] in
  getWorkspace Examples.env lib global (process l) = (Return None, process l)
  /\ fst (globalFilePath Examples.env (process l))
     = Return (Some "/home/u/.angular-config.json").
Proof. by vm_compute. Qed.

Lemma getWorkspace_first_lookup_wins_witness :
  let l := turns Examples.env (Model.lib Examples.env)
             (boot Examples.diskGlobal) Examples.oneAfterTheOther in
  (cacheWrites global (process l) <= 1)%nat.
Proof.
  intros l.
  apply (getWorkspace_first_lookup_wins Examples.env (Model.lib Examples.env)
           Examples.diskGlobal Examples.oneAfterTheOther).
  vm_compute. repeat split; try done. all: intros H; inversion H.
Defined.

(** ** The settings cascade *)

Lemma getPackageManager_Some source s :
  getPackageManager source = Some s <->
  exists m, source = Some (JObj m) /\ m !! "packageManager" = Some (JStr s) /\ s <> "".
Proof.
  unfold getPackageManager, isJsonObject, truthy. split.
  - destruct source as [[| | | | |m]|]; try done.
    destruct (m !! "packageManager") as [[| | |v| |]|] eqn:Hm; try done.
    destruct (String.eqb_spec v ""); [done|]. intros [= <-]. by exists m.
  - intros (m & -> & -> & Hne). by apply String.eqb_neq in Hne as ->.
Qed.

Section PackageManagerTheorems.
Variable env : Env.
Variable lib : Collaborators.

(** C4. [getConfiguredPackageManager] returns the first defined
    [cli.packageManager] (a non-empty string) in the order: extensions of
    the current project, extensions of the local workspace, extensions of
    the global workspace; the global workspace is loaded only when the
    local one defines none, and the legacy file is read only when neither
    workspace exists. *)
Theorem getConfiguredPackageManager_cascade st lw st1 :
  getWorkspace env lib local st = (Return lw, st1) ->
  let fromProject :=
    w ← lw;
    let project := getProjectByCwd env w in
    if truthyName project
    then getPackageManager (projectExtension w (default "" project) "cli")
    else None in
  let fromWorkspace := w ← lw; getPackageManager (extensions (workspace w) !! "cli") in
  (forall s, fromProject = Some s ->
             getConfiguredPackageManager env lib st = (Return (Some s), st1))
  /\ (forall s, fromProject = None -> fromWorkspace = Some s ->
                getConfiguredPackageManager env lib st = (Return (Some s), st1))
  /\ (fromProject = None -> fromWorkspace = None ->
      forall gw st2,
        getWorkspace env lib global st1 = (Return gw, st2) ->
        let fromGlobal :=
          g ← gw; getPackageManager (extensions (workspace g) !! "cli") in
        (is_Some lw \/ is_Some gw ->
         getConfiguredPackageManager env lib st = (Return fromGlobal, st2))
        /\ (lw = None -> gw = None ->
            getConfiguredPackageManager env lib st
            = getLegacyPackageManager env lib st2))
  /\ (forall source s,
        getPackageManager source = Some s <->
        exists m, source = Some (JObj m)
                  /\ m !! "packageManager" = Some (JStr s) /\ s <> "").
Proof.
  intros Hlocal fromProject fromWorkspace.
  assert (forall s, coalesce fromProject fromWorkspace = Some s ->
                    getConfiguredPackageManager env lib st = (Return (Some s), st1))
    as Hdecided.
  { intros s Hs. unfold getConfiguredPackageManager. unfold mbind at 1, M_bind.
    rewrite Hlocal. destruct lw as [w|]; [|done].
    simpl in fromProject, fromWorkspace. fold fromProject fromWorkspace.
    by rewrite Hs. }
  split_and!.
  - intros s Hs. apply Hdecided. by rewrite Hs.
  - intros s Hp Hw. apply Hdecided. by rewrite Hp, Hw.
  - intros Hp Hw gw st2 Hglobal fromGlobal.
    assert (getConfiguredPackageManager env lib st
            = match lw, gw with
              | None, None => getLegacyPackageManager env lib st2
              | _, _ => (Return fromGlobal, st2)
              end) as ->.
    { unfold getConfiguredPackageManager. unfold mbind at 1, M_bind.
      rewrite Hlocal. destruct lw as [w|].
      - simpl in fromProject, fromWorkspace. fold fromProject fromWorkspace.
        rewrite Hp, Hw. simpl. unfold mbind at 1, M_bind. rewrite Hglobal.
        by destruct gw.
      - simpl. unfold mbind at 1, M_bind. rewrite Hglobal. by destruct gw. }
    split.
    + intros [[w ->]|[g ->]]; [done|]. by destruct lw.
    + by intros -> ->.
  - apply getPackageManager_Some.
Qed.
End PackageManagerTheorems.

Lemma getConfiguredPackageManager_cascade_witness :
  getConfiguredPackageManager Examples.env (Model.lib Examples.env) Examples.loaded
  = (Return (Some "pnpm"), Examples.loaded).
Proof.
  assert (getWorkspace Examples.env (Model.lib Examples.env) local Examples.loaded
          = (Return (Some Examples.cascadeLocal), Examples.loaded)) as Hlocal
    by (by vm_compute).
  destruct (getConfiguredPackageManager_cascade _ _ _ _ _ Hlocal) as [H _].
  apply H. by vm_compute.
Defined.

(** The same from the disk: both files are read and parsed. *)
Example getConfiguredPackageManager_from_disk :
  fst (getWorkspace Examples.env (Model.lib Examples.env) local
         (Examples.start Examples.diskCascade))
    = Return (Some Examples.cascadeLocal)
  /\ fst (getWorkspace Examples.env (Model.lib Examples.env) global
            (Examples.start Examples.diskCascade))
    = Return (Some Examples.cascadeGlobal)
  /\ fst (getConfiguredPackageManager Examples.env (Model.lib Examples.env)
            (Examples.start Examples.diskCascade))
    = Return (Some "pnpm").
Proof. by vm_compute. Qed.

(** The first defined value of a list, in its order. *)
Lemma lookup_union_first {V} (m1 m2 : gmap string V) k :
  (m1 ∪ m2) !! k = match m1 !! k with Some v => Some v | None => m2 !! k end.
Proof. rewrite lookup_union. by destruct (m1 !! k), (m2 !! k). Qed.

Section SchematicDefaultsTheorems.
Variable env : Env.
Variable lib : Collaborators.
Variables collection schematic : string.

#[local] Abbreviation qualified := (qualifiedOptions collection schematic).
#[local] Abbreviation nested := (nestedOptions collection schematic).

Lemma mergeOptions_union result source :
  mergeOptions collection schematic result source
  = nested source ∪ (qualified source ∪ result).
Proof.
  unfold mergeOptions, nestedOptions, qualifiedOptions, Object_assign.
  destruct (isJsonObject source) as [s|]; simpl.
  - destruct (isJsonObject (s !! collection)) as [c|]; simpl; [done|].
    by rewrite (left_id_L ∅ (∪)).
  - by rewrite !(left_id_L ∅ (∪)).
Qed.

(** C5. When both workspaces load, [getSchematicDefaults] returns the
    shallow merge of the option objects found for the pair, under the
    qualified key and in the nested form, in the global workspace, the
    local workspace and the project, a narrower scope overriding a wider
    one key by key (and the nested form the qualified key of its scope);
    the result is an object, empty when nothing is found. *)
Theorem getSchematicDefaults_merge project st gw st1 lw st2 :
  getWorkspace env lib global st = (Return gw, st1) ->
  getWorkspace env lib local st1 = (Return lw, st2) ->
  let G := g ← gw; extensions (workspace g) !! "schematics" in
  let W := w ← lw; extensions (workspace w) !! "schematics" in
  let P :=
    w ← lw;
    let project := if truthyName project then project else getProjectByCwd env w in
    if truthyName project
    then projectExtension w (default "" project) "schematics"
    else None in
  exists result,
    getSchematicDefaults env lib collection schematic project st = (Return result, st2)
    /\ result = nested P ∪ qualified P ∪ nested W ∪ qualified W ∪ nested G ∪ qualified G
    /\ (forall k,
          result !! k
          = foldr (fun a b => match a with Some v => Some v | None => b end) None
              [nested P !! k; qualified P !! k;
               nested W !! k; qualified W !! k;
               nested G !! k; qualified G !! k])
    /\ (nested P = ∅ -> qualified P = ∅ -> nested W = ∅ -> qualified W = ∅ ->
        nested G = ∅ -> qualified G = ∅ -> result = ∅).
Proof.
  intros Hglobal Hlocal G W P.
  assert (getSchematicDefaults env lib collection schematic project st
          = (Return (nested P ∪ qualified P ∪ nested W ∪ qualified W
                       ∪ nested G ∪ qualified G), st2)) as Hrun.
  { unfold getSchematicDefaults. cbv zeta. unfold mbind at 1, M_bind. rewrite Hglobal.
    unfold mbind at 1, M_bind. rewrite Hlocal. fold G.
    assert (nested None = ∅) as Hn by done.
    assert (qualified None = ∅) as Hq by done.
    destruct lw as [w|]; simpl in W, P.
    - set (p := if truthyName project then project else getProjectByCwd env w) in *.
      destruct (truthyName p) eqn:Hp; unfold mret, M_ret.
      + rewrite !mergeOptions_union. fold W P.
        by rewrite (right_id_L ∅ (∪)), ?(assoc_L (∪)).
      + rewrite !mergeOptions_union. fold W. subst P. rewrite Hn, Hq.
        by rewrite (right_id_L ∅ (∪)), !(left_id_L ∅ (∪)), ?(assoc_L (∪)).
    - rewrite !mergeOptions_union. subst P W. rewrite Hn, Hq. unfold mret, M_ret.
      by rewrite (right_id_L ∅ (∪)), !(left_id_L ∅ (∪)), ?(assoc_L (∪)). }
  eexists. split; [exact Hrun|]. split; [done|]. split.
  - intros k. simpl. rewrite !lookup_union_first.
    destruct (nested P !! k), (qualified P !! k), (nested W !! k),
      (qualified W !! k), (nested G !! k); try done.
    by destruct (qualified G !! k).
  - intros H1 H2 H3 H4 H5 H6. rewrite H1, H2, H3, H4, H5, H6.
    by rewrite !(left_id_L ∅ (∪)).
Qed.
End SchematicDefaultsTheorems.


Lemma getSchematicDefaults_merge_witness :
  getSchematicDefaults Examples.env (Model.lib Examples.env) "c" "s" None Examples.loaded
  = (Return (<["x" := JNum 3]> {[ "y" := JNum 2 ]}), Examples.loaded).
Proof.
  assert (getWorkspace Examples.env (Model.lib Examples.env) global Examples.loaded
          = (Return (Some Examples.cascadeGlobal), Examples.loaded)) as Hglobal
    by (by vm_compute).
  assert (getWorkspace Examples.env (Model.lib Examples.env) local Examples.loaded
          = (Return (Some Examples.cascadeLocal), Examples.loaded)) as Hlocal
    by (by vm_compute).
  destruct (getSchematicDefaults_merge _ _ "c" "s" None _ _ _ _ _ Hglobal Hlocal)
    as (result & Hrun & Hresult & _).
  rewrite Hrun. f_equal. f_equal. rewrite Hresult. by vm_compute.
Defined.

(** The same from the disk: global [{x: 1}], workspace [{y: 2}] and project
    [{x: 3}] merge to [{x: 3, y: 2}]. *)
Example getSchematicDefaults_from_disk :
  fst (getSchematicDefaults Examples.env (Model.lib Examples.env) "c" "s" None
         (Examples.start Examples.diskCascade))
  = Return (<["x" := JNum 3]> {[ "y" := JNum 2 ]}).
Proof. by vm_compute. Qed.

(* ========================================================================= *)
(** * Further properties of the module *)
(* ========================================================================= *)

(** ** Functions that only read the disk *)

Lemma readsOnly_ret {A} (a : A) : readsOnly (mret a).
Proof. by intros st. Qed.

Lemma readsOnly_throw {A} e : readsOnly (@throw A e).
Proof. by intros st. Qed.

Lemma readsOnly_bind {A B} (m : M A) (k : A -> M B) :
  readsOnly m -> (forall a, readsOnly (k a)) -> readsOnly (m ≫= k).
Proof.
  intros Hm Hk st. specialize (Hm st).
  unfold mbind, M_bind. destruct (m st) as [[a|e] st1]; simpl in *; [|done].
  by rewrite (Hk a st1).
Qed.

Lemma readsOnly_existsSync env p : readsOnly (existsSync env p).
Proof. by intros st. Qed.

Lemma readsOnly_readFileSync env p : readsOnly (readFileSync env p).
Proof. intros st. unfold readFileSync. by destruct (files st !! diskPath env p). Qed.

Lemma readsOnly_findUpIO lib names from : readsOnly (findUpIO lib names from).
Proof. by intros st. Qed.

Lemma readsOnly_cache_get level : readsOnly (cache_get level).
Proof. by intros st. Qed.

Lemma readsOnly_cache_set level v : readsOnly (cache_set level v).
Proof. by intros st. Qed.

Lemma readsOnly_readWorkspaceIO lib configPath : readsOnly (readWorkspaceIO lib configPath).
Proof. by intros st. Qed.

Create HintDb readsOnly.

#[local] Hint Resolve readsOnly_ret readsOnly_throw readsOnly_bind readsOnly_existsSync
  readsOnly_readFileSync readsOnly_findUpIO readsOnly_cache_get readsOnly_cache_set
  readsOnly_readWorkspaceIO : readsOnly.

Section ReadersFacts.
Variable env : Env.
Variable lib : Collaborators.

Lemma readsOnly_projectFilePath projectPath : readsOnly (projectFilePath env lib projectPath).
Proof.
  unfold projectFilePath, orElse. apply readsOnly_bind.
  - destruct (truthyName projectPath); auto with readsOnly.
  - intros first. destruct (truthyName first); [auto with readsOnly|].
    apply readsOnly_bind; [auto with readsOnly|].
    intros second. destruct (truthyName second); auto with readsOnly.
Qed.

Lemma readsOnly_globalFilePath : readsOnly (globalFilePath env).
Proof.
  unfold globalFilePath. destruct (negb _); [auto with readsOnly|].
  apply readsOnly_bind; [auto with readsOnly|]. intros [|]; [auto with readsOnly|].
  apply readsOnly_bind; [auto with readsOnly|]. intros [|]; auto with readsOnly.
Qed.

Lemma readsOnly_getWorkspace_begin level : readsOnly (getWorkspace_begin env lib level).
Proof.
  unfold getWorkspace_begin. apply readsOnly_bind; [auto with readsOnly|].
  intros [v|]; [auto with readsOnly|]. apply readsOnly_bind.
  - destruct level; [apply readsOnly_projectFilePath|apply readsOnly_globalFilePath].
  - intros configPath. destruct (negb _); auto with readsOnly.
Qed.

Lemma readsOnly_getWorkspace_resume level configPath :
  readsOnly (getWorkspace_resume lib level configPath).
Proof.
  unfold getWorkspace_resume. apply readsOnly_bind; [auto with readsOnly|].
  intros [message|ws]; auto with readsOnly.
Qed.

Lemma readsOnly_getWorkspace level : readsOnly (getWorkspace env lib level).
Proof.
  unfold getWorkspace. apply readsOnly_bind; [apply readsOnly_getWorkspace_begin|].
  intros [result|configPath]; [auto with readsOnly|apply readsOnly_getWorkspace_resume].
Qed.

Lemma readsOnly_getLegacyPackageManager : readsOnly (getLegacyPackageManager env lib).
Proof.
  unfold getLegacyPackageManager. destruct (truthy _); [|auto with readsOnly].
  apply readsOnly_bind; [auto with readsOnly|]. intros [|]; [|auto with readsOnly].
  apply readsOnly_bind; [auto with readsOnly|]. intros content.
  destruct (parseJson lib content) as [[| | | | |legacy]|]; simpl; auto with readsOnly.
Qed.

(** What [getWorkspace] throws: the failure of the read, wrapped; the level
    is then left out of the cache. *)
Lemma getWorkspace_throws level st e st' :
  getWorkspace env lib level st = (Throw e, st') ->
  cachedWorkspaces st !! levelName level = None
  /\ cachedWorkspaces st' = cachedWorkspaces st
  /\ exists configPath message,
       fst (match level with
            | local => projectFilePath env lib None
            | global => globalFilePath env
            end st) = Return (Some configPath)
       /\ readWorkspace lib configPath (files st) = inl message
       /\ e = Error ("Workspace config file cannot be loaded: " ++ configPath
                     ++ newline ++ message)%string.
Proof.
  unfold getWorkspace, getWorkspace_begin.
  unfold mbind at 1 2, M_bind, cache_get.
  destruct (cachedWorkspaces st !! levelName level) as [c|] eqn:Hc; [done|].
  set (m := match level with
            | local => projectFilePath env lib None
            | global => globalFilePath env
            end).
  assert (quiet m) as Hquiet by (unfold m; destruct level; auto with quiet).
  assert (readsOnly m) as Hreads.
  { unfold m. destruct level;
      [apply readsOnly_projectFilePath|apply readsOnly_globalFilePath]. }
  destruct (Hquiet st) as ([configPath Hret] & Hcache & _). specialize (Hreads st).
  unfold mbind at 1, M_bind.
  destruct (m st) as [r st1]. simpl in *. subst r.
  destruct configPath as [configPath|]; simpl; [|done].
  destruct (truthy configPath); simpl; [|done].
  unfold getWorkspace_resume, readWorkspaceIO. unfold mbind at 1, M_bind.
  destruct (readWorkspace lib configPath (files st1)) as [message|ws] eqn:Hread; [|done].
  intros [= <- <-]. split; [done|]. split; [done|].
  exists configPath, message. by rewrite <- Hreads.
Qed.
End ReadersFacts.

Section LoadTheorems.
Variable env : Env.
Variable lib : Collaborators.

(** X1. When [getWorkspace] throws, the error is the failure of the read of
    the file the level resolved to, wrapped with that path in
    [Workspace config file cannot be loaded: <path>\n<message>]; nothing has
    been cached for the level, which was and stays absent from the cache, so
    a later call looks the file up and reads it again; and the disk is as
    it was. *)
Theorem getWorkspace_failure_not_cached level st e st' :
  getWorkspace env lib level st = (Throw e, st') ->
  (exists configPath message,
      fst (match level with
           | local => projectFilePath env lib None
           | global => globalFilePath env
           end st) = Return (Some configPath)
      /\ readWorkspace lib configPath (files st) = inl message
      /\ e = Error ("Workspace config file cannot be loaded: " ++ configPath
                    ++ newline ++ message)%string)
  /\ cachedWorkspaces st' !! levelName level = None
  /\ cachedWorkspaces st' = cachedWorkspaces st
  /\ files st' = files st
  /\ (forall lvl, cacheWrites lvl st' = cacheWrites lvl st).
Proof.
  intros Hrun. destruct (getWorkspace_throws _ _ _ _ _ _ Hrun) as (Hnone & Hcache & Hwhy).
  split; [done|]. split; [by rewrite Hcache|]. split; [done|]. split.
  - pose proof (readsOnly_getWorkspace env lib level st) as H. by rewrite Hrun in H.
  - revert Hrun. unfold getWorkspace. unfold mbind at 1, M_bind.
    destruct (getWorkspace_begin_uncached env lib _ _ Hnone)
      as (st1 & _ & Hw & [[p ->]| ->]); [|done].
    destruct (getWorkspace_resume_cases lib level p st1)
      as [(ws & _ & ->)|(e' & ->)]; [done|].
    intros [= <- <-] lvl. by rewrite cacheWrites_log.
Qed.

(** X2. What [getWorkspace] has returned for a level is not refreshed by
    the functions of the module that write the global file: after
    [createGlobalSettings], [migrateLegacyGlobalConfig] or [getWorkspaceRaw]
    (which creates the global file when there is none), whether they return
    or throw, [getWorkspace] for that level returns the same value as
    before and reads nothing. *)
Theorem getWorkspace_not_refreshed_by_writers level st v st1 :
  getWorkspace env lib level st = (Return v, st1) ->
  forall (after : State),
    after = snd (createGlobalSettings env lib st1)
    \/ after = snd (migrateLegacyGlobalConfig env lib st1)
    \/ (exists lvl, after = snd (getWorkspaceRaw env lib lvl st1)) ->
    getWorkspace env lib level after = (Return v, after).
Proof.
  intros Hrun after Hafter. apply getWorkspace_cached.
  apply getWorkspace_caches in Hrun.
  destruct Hafter as [-> | [-> | [lvl ->]]].
  - by rewrite (proj1 (leavesCache_createGlobalSettings env lib st1)).
  - by rewrite (proj1 (leavesCache_migrateLegacyGlobalConfig env lib st1)).
  - by rewrite (proj1 (leavesCache_getWorkspaceRaw env lib lvl st1)).
Qed.
End LoadTheorems.

Lemma getWorkspace_failure_not_cached_witness :
  let st := Examples.start Examples.diskWorkspaceMalformed in
  let st' := snd (getWorkspace Examples.env (Model.lib Examples.env) local st) in
  cachedWorkspaces st' !! "local" = None /\ files st' = files st.
Proof.
  intros st st'.
  assert (getWorkspace Examples.env (Model.lib Examples.env) local st
          = (Throw (Error ("Workspace config file cannot be loaded: /w/angular.json"
                           ++ newline ++ "Invalid JSON")%string), st')) as Hrun
    by (by vm_compute).
  destruct (getWorkspace_failure_not_cached _ _ _ _ _ _ Hrun) as (_ & Hc & _ & Hf & _).
  by split.
Defined.

Lemma getWorkspace_not_refreshed_by_writers_witness :
  let lib := Model.lib Examples.env in
  let after := snd (createGlobalSettings Examples.env lib Examples.warned) in
  getWorkspace Examples.env lib global after = (Return None, after).
Proof.
  intros lib after.
  apply (getWorkspace_not_refreshed_by_writers Examples.env lib global
           Examples.warned None Examples.warned); [by vm_compute|].
  by left.
Defined.

(** ** Warnings *)

Lemma getWarning_Some warning source b :
  getWarning warning source = Some b <->
  exists cli warnings,
    source = Some (JObj cli) /\ cli !! "warnings" = Some (JObj warnings)
    /\ warnings !! warning = Some (JBool b).
Proof.
  unfold getWarning, isJsonObject. split.
  - destruct source as [[| | | | |cli]|]; try done.
    destruct (cli !! "warnings") as [[| | | | |warnings]|] eqn:Hw; try done.
    destruct (warnings !! warning) as [[|value| | | |]|] eqn:Hv; try done.
    intros [= <-]. by exists cli, warnings.
  - intros (cli & warnings & -> & -> & ->). done.
Qed.

Section WarningTheorems.
Variable env : Env.
Variable lib : Collaborators.

(** X3. [isWarningEnabled] returns the first boolean found under
    [cli.warnings.<warning>] in the order: extensions of the current
    project, extensions of the local workspace, extensions of the global
    workspace, and true when none holds one. A [false] at a narrower scope
    is a value like [true] and wins over a wider scope; a value that is
    not a boolean counts as absent; the global workspace is loaded only
    when the local one holds no boolean. *)
Theorem isWarningEnabled_cascade warning st lw st1 :
  getWorkspace env lib local st = (Return lw, st1) ->
  let atProject :=
    w ← lw;
    let project := getProjectByCwd env w in
    if truthyName project
    then getWarning warning (projectExtension w (default "" project) "cli")
    else None in
  let atWorkspace := w ← lw; getWarning warning (extensions (workspace w) !! "cli") in
  (forall b, atProject = Some b ->
             isWarningEnabled env lib warning st = (Return b, st1))
  /\ (forall b, atProject = None -> atWorkspace = Some b ->
                isWarningEnabled env lib warning st = (Return b, st1))
  /\ (atProject = None -> atWorkspace = None ->
      forall gw st2,
        getWorkspace env lib global st1 = (Return gw, st2) ->
        let atGlobal := g ← gw; getWarning warning (extensions (workspace g) !! "cli") in
        isWarningEnabled env lib warning st = (Return (default true atGlobal), st2))
  /\ (forall source b,
        getWarning warning source = Some b <->
        exists cli warnings,
          source = Some (JObj cli) /\ cli !! "warnings" = Some (JObj warnings)
          /\ warnings !! warning = Some (JBool b)).
Proof.
  intros Hlocal atProject atWorkspace.
  assert (forall b, coalesceBool atProject atWorkspace = Some b ->
                    isWarningEnabled env lib warning st = (Return b, st1)) as Hdecided.
  { intros b Hb. unfold isWarningEnabled. unfold mbind at 1, M_bind.
    rewrite Hlocal. destruct lw as [w|]; [|done].
    simpl in atProject, atWorkspace. fold atProject atWorkspace.
    by rewrite Hb. }
  split_and!.
  - intros b Hb. apply Hdecided. by rewrite Hb.
  - intros b Hp Hw. apply Hdecided. by rewrite Hp, Hw.
  - intros Hp Hw gw st2 Hglobal atGlobal.
    unfold isWarningEnabled. unfold mbind at 1, M_bind. rewrite Hlocal.
    destruct lw as [w|].
    + simpl in atProject, atWorkspace. fold atProject atWorkspace.
      rewrite Hp, Hw. simpl. unfold mbind at 1, M_bind. rewrite Hglobal. by destruct gw.
    + simpl. unfold mbind at 1, M_bind. rewrite Hglobal. by destruct gw.
  - apply getWarning_Some.
Qed.
End WarningTheorems.

Lemma isWarningEnabled_cascade_witness :
  isWarningEnabled Examples.env (Model.lib Examples.env) "versionMismatch" Examples.warned
  = (Return false, Examples.warned).
Proof.
  assert (getWorkspace Examples.env (Model.lib Examples.env) local Examples.warned
          = (Return (Some Examples.warningsLocal), Examples.warned)) as Hlocal
    by (by vm_compute).
  destruct (isWarningEnabled_cascade _ _ "versionMismatch" _ _ _ Hlocal) as [H _].
  apply H. by vm_compute.
Defined.

(** ** What the settings resolvers leave untouched *)

Section ResolverFacts.
Variable env : Env.
Variable lib : Collaborators.

Lemma readsOnly_getConfiguredPackageManager :
  readsOnly (getConfiguredPackageManager env lib).
Proof.
  unfold getConfiguredPackageManager.
  apply readsOnly_bind; [apply readsOnly_getWorkspace|]. intros lw. cbv zeta.
  match goal with |- readsOnly (match ?r with _ => _ end) => destruct r end;
    [auto with readsOnly|].
  apply readsOnly_bind; [apply readsOnly_getWorkspace|]. intros gw.
  destruct lw, gw; auto using readsOnly_getLegacyPackageManager with readsOnly.
Qed.

Lemma readsOnly_getSchematicDefaults collection schematic project :
  readsOnly (getSchematicDefaults env lib collection schematic project).
Proof.
  unfold getSchematicDefaults. cbv zeta.
  apply readsOnly_bind; [apply readsOnly_getWorkspace|]. intros gw.
  apply readsOnly_bind; [apply readsOnly_getWorkspace|]. intros [w|]; [|auto with readsOnly].
  destruct (truthyName _); auto with readsOnly.
Qed.

Lemma readsOnly_isWarningEnabled warning : readsOnly (isWarningEnabled env lib warning).
Proof.
  unfold isWarningEnabled.
  apply readsOnly_bind; [apply readsOnly_getWorkspace|]. intros lw. cbv zeta.
  match goal with |- readsOnly (match ?r with _ => _ end) => destruct r end;
    [auto with readsOnly|].
  apply readsOnly_bind; [apply readsOnly_getWorkspace|]. intros gw. auto with readsOnly.
Qed.
End ResolverFacts.

Section ResolverTheorems.
Variable env : Env.
Variable lib : Collaborators.

(** X4. The lookups never change the disk, whether they return or throw:
    [projectFilePath], [globalFilePath], [getWorkspace],
    [getLegacyPackageManager], [getConfiguredPackageManager],
    [getSchematicDefaults] and [isWarningEnabled] leave every file as it
    is. *)
Theorem lookups_leave_the_disk :
  (forall projectPath, readsOnly (projectFilePath env lib projectPath))
  /\ readsOnly (globalFilePath env)
  /\ (forall level, readsOnly (getWorkspace env lib level))
  /\ readsOnly (getLegacyPackageManager env lib)
  /\ readsOnly (getConfiguredPackageManager env lib)
  /\ (forall collection schematic project,
        readsOnly (getSchematicDefaults env lib collection schematic project))
  /\ (forall warning, readsOnly (isWarningEnabled env lib warning)).
Proof.
  split_and!.
  - apply readsOnly_projectFilePath.
  - apply readsOnly_globalFilePath.
  - apply readsOnly_getWorkspace.
  - apply readsOnly_getLegacyPackageManager.
  - apply readsOnly_getConfiguredPackageManager.
  - apply readsOnly_getSchematicDefaults.
  - apply readsOnly_isWarningEnabled.
Qed.
End ResolverTheorems.

(** ** The global file: writing it and reading it raw *)

Lemma truthy_false s : truthy s = false <-> s = "".
Proof. unfold truthy. destruct (String.eqb_spec s ""); by split. Qed.

Lemma truthy_true s : truthy s = true <-> s <> "".
Proof. unfold truthy. destruct (String.eqb_spec s ""); by split. Qed.

Section GlobalFileFacts.
Variable env : Env.
Variable lib : Collaborators.

(** [createGlobalSettings], run. *)
Lemma createGlobalSettings_eq st :
  createGlobalSettings env lib st =
  let globalPath := NodePath.join [os_homedir env; globalFileName] in
  let data := JSON_stringify lib (JObj {[ "version" := JNum 1 ]}) None in
  if truthy (os_homedir env) then
    (Return globalPath,
     {| files := <[diskPath env globalPath := data]> (files st);
        cachedWorkspaces := cachedWorkspaces st;
        trace := DiskWrite globalPath data :: trace st |})
  else (Throw (Error "No home directory found."), st).
Proof. unfold createGlobalSettings. by destruct (truthy (os_homedir env)). Qed.

(** A path [globalFilePath] returns names a file that is there. *)
Lemma globalFilePath_Some st p :
  fst (globalFilePath env st) = Return (Some p) ->
  is_Some (files st !! diskPath env p) /\ p <> "".
Proof.
  rewrite globalFilePath_eq. destruct (truthy (os_homedir env)); [|done].
  cbv beta iota zeta.
  destruct (bool_decide (is_Some _)) eqn:Hxdg.
  { intros [= <-]. split; [by apply bool_decide_eq_true in Hxdg|].
    apply truthy_true, xdgConfigHome_truthy. }
  clear Hxdg. cbv beta iota.
  destruct (bool_decide (is_Some _)) eqn:Hhome; simpl; [|done].
  intros [= <-]. split; [by apply bool_decide_eq_true in Hhome|].
  apply truthy_true, join_truthy.
Qed.

(** Once the file in the home directory is there, [globalFilePath] finds a
    file. *)
Lemma globalFilePath_found st :
  os_homedir env <> "" ->
  is_Some (files st !! diskPath env (NodePath.join [os_homedir env; globalFileName])) ->
  exists p, fst (globalFilePath env st) = Return (Some p).
Proof.
  intros Hhome Hfile. rewrite globalFilePath_eq.
  apply truthy_true in Hhome as ->. cbv beta iota zeta.
  destruct (bool_decide (is_Some _)); [by eexists|]. cbv beta iota.
  rewrite bool_decide_eq_true_2 by done. by eexists.
Qed.

(** [readRaw] of a file that is there. *)
Lemma readRaw_eq st configPath data :
  files st !! diskPath env configPath = Some data ->
  readRaw env lib configPath st
  = (match parseJsonAst lib (stripBOM data) with
     | None => Throw JsonException
     | Some (AstObj props) => Return (Some (AstObj props), Some configPath)
     | Some _ => Throw (Error ("Invalid JSON file: " ++ configPath)%string)
     end, log (DiskRead configPath) st).
Proof.
  intros Hfile. unfold readRaw. run. rewrite Hfile.
  by destruct (parseJsonAst lib (stripBOM data)) as [[]|].
Qed.

Lemma readRaw_missing st configPath :
  files st !! diskPath env configPath = None ->
  readRaw env lib configPath st = (Throw (ENOENT configPath), log (DiskRead configPath) st).
Proof. intros Hfile. unfold readRaw. run. by rewrite Hfile. Qed.

(** [getWorkspaceRaw('global')], run. *)
Lemma getWorkspaceRaw_global_eq st :
  getWorkspaceRaw env lib global st =
  match globalFilePath env st with
  | (Return (Some p), st1) => readRaw env lib p st1
  | (Return None, st1) =>
      match createGlobalSettings env lib st1 with
      | (Return p, st2) => readRaw env lib p st2
      | (Throw e, st2) => (Throw e, st2)
      end
  | (Throw e, st1) => (Throw e, st1)
  end.
Proof.
  unfold getWorkspaceRaw. unfold mbind at 1, M_bind.
  pose proof (globalFilePath_Some st) as Hsome.
  destruct (globalFilePath env st) as [[[p|]|e] st1]; simpl in *; [|done..].
  destruct (Hsome p eq_refl) as [_ Hne]. by apply truthy_true in Hne as ->.
Qed.
End GlobalFileFacts.

Section GlobalFileTheorems.
Variable env : Env.
Variable lib : Collaborators.

(** X7. Without a home directory [createGlobalSettings] throws
    [No home directory found.] and changes nothing. With one it returns
    [<home>/.angular-config.json], wherever [XDG_CONFIG_HOME] points, and
    has replaced the content of that one file: every other file is as it
    was, the cache is as it was, a second call leaves the disk as the
    first did, and [globalFilePath] then finds a global file. *)
Theorem createGlobalSettings_outcome st :
  let globalPath := NodePath.join [os_homedir env; globalFileName] in
  let data := JSON_stringify lib (JObj {[ "version" := JNum 1 ]}) None in
  let st' := snd (createGlobalSettings env lib st) in
  (os_homedir env = "" ->
   createGlobalSettings env lib st = (Throw (Error "No home directory found."), st))
  /\ (os_homedir env <> "" ->
      fst (createGlobalSettings env lib st) = Return globalPath
      /\ files st' !! diskPath env globalPath = Some data
      /\ (forall file, file <> diskPath env globalPath ->
                       files st' !! file = files st !! file)
      /\ cachedWorkspaces st' = cachedWorkspaces st
      /\ files (snd (createGlobalSettings env lib st')) = files st'
      /\ exists p, fst (globalFilePath env st') = Return (Some p)
                   /\ is_Some (files st' !! diskPath env p)).
Proof.
  intros globalPath data st'. subst st'. rewrite !createGlobalSettings_eq. cbv zeta.
  fold globalPath data. split.
  - intros Hhome. apply truthy_false in Hhome. by rewrite Hhome.
  - intros Hhome. pose proof Hhome as Htruthy. apply truthy_true in Htruthy.
    rewrite !Htruthy. simpl.
    split; [done|]. split; [apply lookup_insert_eq|].
    split; [intros file Hfile; by apply lookup_insert_ne|].
    split; [done|]. split; [apply insert_insert_eq|].
    match goal with |- context [globalFilePath env ?s] => set (st' := s) end.
    destruct (globalFilePath_found env st' Hhome) as [p Hp].
    { simpl. fold globalPath. rewrite lookup_insert_eq. by eexists. }
    exists p. split; [done|]. by apply (globalFilePath_Some env st' p).
Qed.

(** X8. What [getWorkspaceRaw] returns is either [[null, null]], only for
    the local level when no workspace file is found and then with the disk
    untouched, or a path with the AST of an object, which is what the
    parser gives for the content of the file at that path on the disk the
    call leaves, its byte order mark taken off. For the global level the
    result is never [[null, null]]. *)
Theorem getWorkspaceRaw_returns level st ast path st' :
  getWorkspaceRaw env lib level st = (Return (ast, path), st') ->
  (level = local /\ ast = None /\ path = None /\ files st' = files st)
  \/ (exists configPath props data,
         path = Some configPath /\ ast = Some (AstObj props)
         /\ files st' !! diskPath env configPath = Some data
         /\ parseJsonAst lib (stripBOM data) = Some (AstObj props)).
Proof.
  assert (forall p s, readRaw env lib p s = (Return (ast, path), st') ->
            exists configPath props data,
              path = Some configPath /\ ast = Some (AstObj props)
              /\ files st' !! diskPath env configPath = Some data
              /\ parseJsonAst lib (stripBOM data) = Some (AstObj props)) as Hread.
  { intros p s. destruct (files s !! diskPath env p) as [data|] eqn:Hfile.
    - rewrite (readRaw_eq _ _ _ _ _ Hfile).
      destruct (parseJsonAst lib (stripBOM data)) as [[| | | | |props]|] eqn:Hparse;
        try done.
      intros [= <- <- <-]. by exists p, props, data.
    - by rewrite (readRaw_missing _ _ _ _ Hfile). }
  destruct level.
  - unfold getWorkspaceRaw. unfold mbind at 1, M_bind.
    pose proof (readsOnly_projectFilePath env lib None st) as Hfiles.
    destruct (projectFilePath env lib None st) as [[configPath|e] st1]; simpl in *;
      [|done].
    destruct (truthyName configPath); simpl.
    + intros H. right. by eapply Hread.
    + intros [= <- <- <-]. by left.
  - rewrite getWorkspaceRaw_global_eq.
    destruct (globalFilePath env st) as [[[p|]|e] st1]; [| |done].
    + intros H. right. by eapply Hread.
    + destruct (createGlobalSettings env lib st1) as [[p|e] st2]; [|done].
      intros H. right. by eapply Hread.
Qed.

(** X9. [getWorkspaceRaw('global')] never fails for a missing file: it
    reads a file [globalFilePath] has seen or one it has just written.
    What it throws is [No home directory found.] (exactly when there is no
    home directory), the parser's exception, or [Invalid JSON file: <path>]
    for a file whose content is not an object. *)
Theorem getWorkspaceRaw_global_throws st e :
  fst (getWorkspaceRaw env lib global st) = Throw e ->
  (e = Error "No home directory found." /\ os_homedir env = "")
  \/ (os_homedir env <> ""
      /\ (e = JsonException
          \/ exists configPath, e = Error ("Invalid JSON file: " ++ configPath)%string)).
Proof.
  assert (forall p s, is_Some (files s !! diskPath env p) ->
            fst (readRaw env lib p s) = Throw e ->
            e = JsonException
            \/ exists configPath, e = Error ("Invalid JSON file: " ++ configPath)%string)
    as Hread.
  { intros p s [data Hfile]. rewrite (readRaw_eq _ _ _ _ _ Hfile). simpl.
    destruct (parseJsonAst lib (stripBOM data)) as [[| | | | |props]|]; try done;
      intros [= <-]; eauto. }
  rewrite getWorkspaceRaw_global_eq.
  pose proof (globalFilePath_Some env st) as Hsome.
  pose proof (globalFilePath_eq env st) as Hrun.
  destruct (globalFilePath env st) as [[[p|]|e'] st1] eqn:Hglobal; simpl in *.
  - destruct (Hsome p eq_refl) as [Hfile _]. intros H. right.
    destruct (truthy (os_homedir env)) eqn:Hhome; [|done]. apply truthy_true in Hhome.
    split; [done|]. apply (Hread p st1); [|done].
    assert (files st1 = files st) as ->; [|done].
    pose proof (readsOnly_globalFilePath env st) as Hf. by rewrite Hglobal in Hf.
  - rewrite createGlobalSettings_eq. cbv zeta.
    destruct (truthy (os_homedir env)) eqn:Hhome.
    + intros H. right. apply truthy_true in Hhome. split; [done|].
      eapply Hread; [|exact H]. simpl. rewrite lookup_insert_eq. by eexists.
    + simpl. intros [= <-]. left. by apply truthy_false in Hhome.
  - pose proof (quiet_globalFilePath env st) as ([a Ha] & _). by rewrite Hglobal in Ha.
Qed.
End GlobalFileTheorems.

Lemma getWorkspaceRaw_returns_witness :
  let st := Examples.start Examples.diskGlobal in
  let st' := snd (getWorkspaceRaw Examples.env (Model.lib Examples.env) global st) in
  (global = local /\ Some (AstObj [("version", AstNum 1)]) = None
   /\ Some "/home/u/.angular-config.json" = None /\ files st' = files st)
  \/ (exists configPath props data,
         Some "/home/u/.angular-config.json" = Some configPath
         /\ Some (AstObj [("version", AstNum 1)]) = Some (AstObj props)
         /\ files st' !! diskPath Examples.env configPath = Some data
         /\ Model.parseJsonAst (stripBOM data) = Some (AstObj props)).
Proof.
  intros st st'.
  apply (getWorkspaceRaw_returns Examples.env (Model.lib Examples.env) global st).
  by vm_compute.
Defined.

Lemma getWorkspaceRaw_global_throws_witness :
  (Error "Invalid JSON file: /home/u/.angular-config.json" = Error "No home directory found."
   /\ os_homedir Examples.env = "")
  \/ (os_homedir Examples.env <> ""
      /\ (Error "Invalid JSON file: /home/u/.angular-config.json" = JsonException
          \/ exists configPath,
               Error "Invalid JSON file: /home/u/.angular-config.json"
               = Error ("Invalid JSON file: " ++ configPath)%string)).
Proof.
  apply (getWorkspaceRaw_global_throws Examples.env (Model.lib Examples.env)
           (Examples.start Examples.diskGlobalArray)).
  by vm_compute.
Defined.

(** ** The byte order mark *)

Lemma stripBOM_BOM_app text : text <> "" -> stripBOM (BOM ++ text)%string = text.
Proof. intros Hne. by destruct text. Qed.

Lemma stripBOM_BOM : stripBOM BOM = BOM.
Proof. done. Qed.

Section BOMTheorems.
Variable env : Env.
Variable lib : Collaborators.

(** X10. [getWorkspaceRaw] takes a byte order mark off the file before it
    parses it: when the file the level resolves to holds the three bytes
    [ef bb bf] followed by a text that is not empty, the result is that of
    parsing the text alone. A file that holds the three bytes and nothing
    else is given to the parser as it is. *)
Theorem getWorkspaceRaw_strips_BOM level st configPath data :
  fst (match level with
       | local => projectFilePath env lib None
       | global => globalFilePath env
       end st) = Return (Some configPath) ->
  configPath <> "" ->
  files st !! diskPath env configPath = Some data ->
  let parsed (content : string) : Outcome (option JsonAstNode * option string) :=
    match parseJsonAst lib content with
    | None => Throw JsonException
    | Some (AstObj props) => Return (Some (AstObj props), Some configPath)
    | Some _ => Throw (Error ("Invalid JSON file: " ++ configPath)%string)
    end in
  (forall text, data = (BOM ++ text)%string -> text <> "" ->
     fst (getWorkspaceRaw env lib level st) = parsed text)
  /\ (data = BOM -> fst (getWorkspaceRaw env lib level st) = parsed BOM)
  /\ files (snd (getWorkspaceRaw env lib level st)) = files st.
Proof.
  intros Hpath Hne Hfile parsed.
  set (m := match level with
            | local => projectFilePath env lib None
            | global => globalFilePath env
            end) in *.
  assert (readsOnly m) as Hreads.
  { unfold m. destruct level;
      [apply readsOnly_projectFilePath|apply readsOnly_globalFilePath]. }
  specialize (Hreads st).
  assert (getWorkspaceRaw env lib level st
          = (parsed (stripBOM data), log (DiskRead configPath) (snd (m st)))) as ->.
  { unfold getWorkspaceRaw. fold m. unfold mbind at 1, M_bind.
    destruct (m st) as [r st1]. simpl in *. subst r. simpl.
    apply truthy_true in Hne as ->. simpl.
    rewrite <- Hreads in Hfile. by rewrite (readRaw_eq _ _ _ _ _ Hfile). }
  simpl. split; [|split; [|done]].
  - intros text -> Htext. by rewrite stripBOM_BOM_app.
  - by intros ->.
Qed.
End BOMTheorems.

Lemma getWorkspaceRaw_strips_BOM_witness :
  fst (getWorkspaceRaw Examples.env (Model.lib Examples.env) global
         (Examples.start Examples.diskGlobalBOM))
  = Return (Some (AstObj [("version", AstNum 1)]), Some "/home/u/.angular-config.json").
Proof.
  destruct (getWorkspaceRaw_strips_BOM Examples.env (Model.lib Examples.env) global
              (Examples.start Examples.diskGlobalBOM) "/home/u/.angular-config.json"
              (BOM ++ Examples.json "{'version':1}")%string) as [H _];
    [by vm_compute|done|by vm_compute|].
  rewrite (H (Examples.json "{'version':1}")); [|done|done]. by vm_compute.
Defined.

(** ** The legacy file: reading it and migrating it *)

Section LegacyTheorems.
Variable env : Env.
Variable lib : Collaborators.

(** [getLegacyPackageManager], run. *)
Lemma getLegacyPackageManager_eq st :
  getLegacyPackageManager env lib st =
  let legacyGlobalConfigPath := NodePath.join [os_homedir env; ".angular-cli.json"] in
  if truthy (os_homedir env) then
    match files st !! diskPath env legacyGlobalConfigPath with
    | None => (Return None, log (DiskExists legacyGlobalConfigPath) st)
    | Some content =>
        let st1 := log (DiskRead legacyGlobalConfigPath)
                       (log (DiskExists legacyGlobalConfigPath) st) in
        match parseJson lib content with
        | None => (Throw JsonException, st1)
        | Some (JObj legacy) => (Return (legacyPackageManager legacy), st1)
        | Some _ => (Return None, st1)
        end
    end
  else (Return None, st).
Proof.
  unfold getLegacyPackageManager. destruct (truthy (os_homedir env)); [|done]. run.
  destruct (files st !! _) as [content|] eqn:Hfile.
  - rewrite bool_decide_eq_true_2 by eauto. simpl. rewrite Hfile.
    by destruct (parseJson lib content) as [[| | | | |legacy]|].
  - rewrite bool_decide_eq_false_2; [done|]. by intros [? ?].
Qed.

(** X11. [getLegacyPackageManager] and [migrateLegacyGlobalConfig] read the
    legacy file alike. They throw in the same cases, with the same
    exception. A package manager the reader returns is migrated: the
    migration returns true and the global file it writes holds that name
    as [cli.packageManager]. When the migration returns false it has
    written nothing and the reader returns null. After a migration that
    returns true [globalFilePath] finds a global file. *)
Theorem getLegacyPackageManager_agrees_with_migration st :
  let read := fst (getLegacyPackageManager env lib st) in
  let migrated := migrateLegacyGlobalConfig env lib st in
  let globalPath := NodePath.join [os_homedir env; globalFileName] in
  (forall e, read = Throw e <-> fst migrated = Throw e)
  /\ (forall packageManager, read = Return (Some packageManager) ->
        fst migrated = Return true
        /\ exists cli,
             cli !! "packageManager" = Some (JStr packageManager)
             /\ files (snd migrated) !! diskPath env globalPath
                = Some (JSON_stringify lib
                          (JObj (<["version" := JNum 1]> {[ "cli" := JObj cli ]}))
                          (Some 2)))
  /\ (fst migrated = Return false ->
      read = Return None /\ files (snd migrated) = files st)
  /\ (fst migrated = Return true ->
      exists p, fst (globalFilePath env (snd migrated)) = Return (Some p)).
Proof.
  intros read migrated globalPath. subst read migrated.
  rewrite getLegacyPackageManager_eq, migrateLegacyGlobalConfig_eq. cbv zeta.
  fold globalPath.
  destruct (truthy (os_homedir env)) eqn:Hhome; [|by split_and!; try split].
  destruct (files st !! _) as [content|] eqn:Hfile; [|by split_and!; try split].
  destruct (parseJson lib content) as [[| | | | |legacy]|].
  1-5: by split_and!.
  2: { simpl. split_and!; [split; by intros [= <-]|done..]. }
  pose proof (legacyCli_packageManager legacy) as Hpm.
  destruct (0 <? size (legacyCli legacy))%nat eqn:Hsize; simpl.
  - split_and!; [by split| |done|].
    + intros packageManager [= Hread]. split; [done|].
      exists (legacyCli legacy). rewrite Hpm, Hread. split; [done|].
      apply lookup_insert_eq.
    + intros _. apply truthy_true in Hhome.
      match goal with |- context [globalFilePath env ?s] => set (st' := s) end.
      apply (globalFilePath_found env st' Hhome).
      simpl. fold globalPath. rewrite lookup_insert_eq. by eexists.
  - apply Nat.ltb_ge in Hsize.
    assert (legacyCli legacy = ∅) as Hempty by (apply map_size_empty_iff; lia).
    rewrite Hempty, lookup_empty in Hpm.
    destruct (legacyPackageManager legacy); [done|].
    by split_and!; try split.
Qed.
End LegacyTheorems.

(** ** The accessors of [AngularWorkspace] and the schema file *)

Lemma string_app_assoc (s1 s2 s3 : string) :
  ((s1 ++ s2) ++ s3 = s1 ++ (s2 ++ s3))%string.
Proof.
  induction s1 as [|c s1 IH]; [done|].
  change (String c ((s1 ++ s2) ++ s3) = String c (s1 ++ (s2 ++ s3)))%string.
  by rewrite IH.
Qed.

Section AccessorTheorems.
Variable env : Env.

(** X12. [getCli] and [getProjectCli] never return a value that is
    undefined, null or otherwise falsy, so a property of the result can
    always be read: they return the [cli] extension of the workspace, or of
    the project, when it is an object (whatever it holds), and an empty
    object when the extension is missing or falsy or, for [getProjectCli],
    when no project of that name is declared. *)
Theorem getCli_getProjectCli_never_nullish w projectName :
  truthyValue (getCli w) = true
  /\ truthyValue (getProjectCli w projectName) = true
  /\ (forall cli, extensions (workspace w) !! "cli" = Some (JObj cli) ->
                  getCli w = JObj cli)
  /\ (extensions (workspace w) !! "cli" = None -> getCli w = JObj ∅)
  /\ (forall project cli,
        projects_get (projects (workspace w)) projectName = Some project ->
        projectExtensions project !! "cli" = Some (JObj cli) ->
        getProjectCli w projectName = JObj cli)
  /\ (projects_get (projects (workspace w)) projectName = None ->
      getProjectCli w projectName = JObj ∅).
Proof.
  assert (forall value, truthyValue (orEmptyObject value) = true) as Htruthy.
  { intros [v|]; [|done]. unfold orEmptyObject. by destruct (truthyValue v) eqn:Hv. }
  unfold getCli, getProjectCli, projectExtension. split_and!; try apply Htruthy.
  - by intros cli ->.
  - by intros ->.
  - intros project cli -> Hcli. simpl. by rewrite Hcli.
  - by intros ->.
Qed.

(** X13. The schema file [validateWorkspace] reads is the one whose path
    the module exports as [workspaceSchemaPath]: the two [path.join]
    expressions, of one relative path and of its four segments, give the
    same path for every installation directory. *)
Theorem workspaceSchemaPath_is_the_schema_validated :
  workspaceSchemaPath env = validateWorkspace_schemaPath env.
Proof.
  unfold workspaceSchemaPath, getSchemaLocation, validateWorkspace_schemaPath,
    NodePath.join.
  destruct (dirname__ env) as [|c d]; [reflexivity|].
  rewrite !filter_cons_True, !filter_nil by done.
  f_equal. unfold NodePath.joinSlash, foldl.
  by rewrite !string_app_assoc.
Qed.
End AccessorTheorems.

(** ** Which file the local level loads *)

Section LocalFileTheorems.
Variable env : Env.
Variable lib : Collaborators.

(** X14. A first [getWorkspace('local')] loads the file [findUp] finds
    from the working directory upwards, and then does not search from the
    directory of the module; only when the working directory has no
    workspace file above it does it load the one found from the directory
    of the module upwards; with neither it returns null and caches it. *)
Theorem getWorkspace_local_searches_cwd_first st :
  cachedWorkspaces st !! levelName local = None ->
  let fromCwd := findUp lib configNames (process_cwd env) (files st) in
  let fromModule := findUp lib configNames (dirname__ env) (files st) in
  let load (configPath : string) : Outcome (option AngularWorkspace) :=
    match readWorkspace lib configPath (files st) with
    | inr ws => Return (Some {| workspace := ws; filePath := configPath |})
    | inl message =>
        Throw (Error ("Workspace config file cannot be loaded: " ++ configPath
                      ++ newline ++ message)%string)
    end in
  let run := getWorkspace env lib local st in
  (forall configPath, fromCwd = Some configPath -> configPath <> "" ->
     fst run = load configPath
     /\ exists events,
          trace (snd run)
          = events ++ DiskFindUp configNames (process_cwd env) :: trace st
          /\ forall names from, DiskFindUp names from ∉ events)
  /\ (truthyName fromCwd = false ->
      (forall configPath, fromModule = Some configPath -> configPath <> "" ->
         fst run = load configPath)
      /\ (truthyName fromModule = false ->
          fst run = Return None
          /\ cachedWorkspaces (snd run) !! levelName local = Some None)).
Proof.
  intros Hcache fromCwd fromModule load run. subst run fromCwd fromModule.
  unfold getWorkspace, getWorkspace_begin, projectFilePath, orElse,
    getWorkspace_resume.
  run. rewrite Hcache. split.
  - intros configPath Hfound Hne. apply truthy_true in Hne.
    rewrite !Hfound. repeat (progress (simpl; rewrite ?Hne)). unfold load.
    destruct (readWorkspace lib configPath (files st)) as [message|ws]; simpl.
    + split; [done|]. exists [DiskRead configPath]. split; [done|].
      intros names from Hin. by apply list_elem_of_singleton in Hin.
    + split; [done|]. exists [CacheSet "local"; DiskRead configPath]. split; [done|].
      intros names from Hin. set_solver.
  - intros Hcwd. rewrite !Hcwd. simpl. split.
    + intros configPath Hfound Hne. apply truthy_true in Hne.
      rewrite !Hfound. repeat (progress (simpl; rewrite ?Hne)). unfold load.
      by destruct (readWorkspace lib configPath (files st)).
    + intros Hmodule. rewrite !Hmodule. simpl. split; [done|]. apply lookup_insert_eq.
Qed.
End LocalFileTheorems.

Lemma getWorkspace_local_searches_cwd_first_witness :
  fst (getWorkspace Examples.env (Model.lib Examples.env) local
         (Examples.start Examples.diskCascade))
  = Return (Some Examples.cascadeLocal).
Proof.
  destruct (getWorkspace_local_searches_cwd_first Examples.env (Model.lib Examples.env)
              (Examples.start Examples.diskCascade)) as [H _]; [by vm_compute|].
  destruct (H "/w/angular.json") as [-> _]; [by vm_compute|done|]. by vm_compute.
Defined.

(** ** The files in the home directory are different files *)

Lemma splitSlash_app_slash cur s t :
  NodePath.splitSlash cur (s ++ "/" ++ t)%string
  = NodePath.splitSlash cur s ++ NodePath.splitSlash "" t.
Proof.
  revert cur. induction s as [|c s IH]; intros cur; [done|].
  change (String c s ++ "/" ++ t)%string with (String c (s ++ "/" ++ t))%string.
  simpl. destruct (Ascii.eqb c "/"); by rewrite IH.
Qed.

Lemma list_ascii_of_string_app s t :
  list_ascii_of_string (s ++ t)%string = list_ascii_of_string s ++ list_ascii_of_string t.
Proof.
  induction s as [|c s IH]; [done|].
  change (String c s ++ t)%string with (String c (s ++ t))%string.
  simpl. by rewrite IH.
Qed.

Lemma endsWithSlash_app s t :
  t <> "" -> NodePath.endsWithSlash (s ++ t)%string = NodePath.endsWithSlash t.
Proof.
  intros Ht. unfold NodePath.endsWithSlash.
  rewrite list_ascii_of_string_app, rev_app_distr.
  destruct t as [|c t]; [done|]. simpl.
  by destruct (rev (list_ascii_of_string t)).
Qed.

Lemma pushSegment_plainName allowAboveRoot stack name :
  plainName name -> NodePath.pushSegment allowAboveRoot stack name = name :: stack.
Proof.
  intros (_ & _ & H1 & H2 & H3). unfold NodePath.pushSegment.
  apply String.eqb_neq in H1, H2, H3. by rewrite H1, H2, H3.
Qed.

Lemma normalizeSegments_plainName name allowAboveRoot :
  plainName name -> NodePath.normalizeSegments name allowAboveRoot = [name].
Proof.
  intros Hname. unfold NodePath.normalizeSegments.
  rewrite (proj1 Hname). simpl. by rewrite pushSegment_plainName.
Qed.

Lemma normalizeSegments_snoc s name allowAboveRoot :
  plainName name ->
  NodePath.normalizeSegments (s ++ "/" ++ name)%string allowAboveRoot
  = NodePath.normalizeSegments s allowAboveRoot ++ [name].
Proof.
  intros Hname. unfold NodePath.normalizeSegments.
  rewrite splitSlash_app_slash, (proj1 Hname), foldl_app. simpl.
  by rewrite pushSegment_plainName.
Qed.

Lemma normalizeSegments_slash s allowAboveRoot :
  NodePath.normalizeSegments (s ++ "/")%string allowAboveRoot
  = NodePath.normalizeSegments s allowAboveRoot.
Proof.
  unfold NodePath.normalizeSegments.
  change (s ++ "/")%string with (s ++ "/" ++ "")%string.
  rewrite splitSlash_app_slash, foldl_app. done.
Qed.

Lemma joinSlash_snoc segs name :
  endsIn name (NodePath.joinSlash (segs ++ [name])).
Proof.
  destruct segs as [|s segs]; [by left|]. right.
  exists (NodePath.joinSlash (s :: segs)). simpl. by rewrite foldl_app.
Qed.

Lemma endsIn_ne name path : name <> "" -> endsIn name path -> path <> "".
Proof.
  intros Hname [->|[pre ->]]; [done|]. by destruct pre.
Qed.

Lemma endsIn_app name pre path : endsIn name path -> endsIn name (pre ++ "/" ++ path)%string.
Proof.
  intros [->|[pre' ->]]; right.
  - by exists pre.
  - exists (pre ++ "/" ++ pre')%string. by rewrite !string_app_assoc.
Qed.

Lemma endsIn_slash name path : endsIn name path -> endsIn name ("/" ++ path)%string.
Proof. apply (endsIn_app name ""). Qed.

(** The normal form of a path that ends in a file name, with or without a
    slash after it, ends in that name. *)
Lemma normalizeString_endsIn name path allowAboveRoot :
  plainName name -> endsIn name path ->
  endsIn name (NodePath.normalizeString path allowAboveRoot)
  /\ endsIn name (NodePath.normalizeString (path ++ "/") allowAboveRoot).
Proof.
  intros Hname Hpath. unfold NodePath.normalizeString.
  rewrite normalizeSegments_slash.
  assert (endsIn name (NodePath.joinSlash (NodePath.normalizeSegments path allowAboveRoot)));
    [|done].
  destruct Hpath as [->|[pre ->]].
  - rewrite normalizeSegments_plainName by done. by left.
  - rewrite normalizeSegments_snoc by done. apply joinSlash_snoc.
Qed.

Lemma join_endsIn home name :
  home <> "" -> plainName name -> endsIn name (NodePath.join [home; name]).
Proof.
  intros Hhome Hname. pose proof Hname as (_ & Hslash & Hne & _).
  unfold NodePath.join. rewrite !filter_cons_True, filter_nil by done.
  change (NodePath.joinSlash [home; name]) with (home ++ "/" ++ name)%string.
  assert (endsIn name (home ++ "/" ++ name)%string) as Hpath by (right; by exists home).
  unfold NodePath.normalize.
  destruct (String.eqb_spec (home ++ "/" ++ name) "") as [He|_].
  { by destruct home. }
  cbv zeta.
  destruct (normalizeString_endsIn name _
              (negb (NodePath.startsWithSlash (home ++ "/" ++ name))) Hname Hpath)
    as [Hp _].
  pose proof (endsIn_ne _ _ Hne Hp) as Hpne. apply String.eqb_neq in Hpne. rewrite Hpne.
  assert (NodePath.endsWithSlash (home ++ "/" ++ name) = false) as ->.
  { rewrite <- Hslash. rewrite <- string_app_assoc. by apply endsWithSlash_app. }
  destruct (NodePath.startsWithSlash _); [by apply endsIn_slash|done].
Qed.

Lemma resolve_endsIn cwd name path :
  plainName name -> endsIn name path -> endsIn name (NodePath.resolve cwd [path]).
Proof.
  intros Hname Hpath. pose proof Hname as (_ & _ & Hne & _).
  pose proof (endsIn_ne _ _ Hne Hpath) as Hpne. unfold NodePath.resolve.
  assert (exists full absolute,
            NodePath.resolveLoop (rev [path] ++ [cwd]) "" = ((full ++ "/")%string, absolute)
            /\ endsIn name full) as (full & absolute & -> & Hfull).
  { simpl. apply String.eqb_neq in Hpne. rewrite Hpne.
    destruct (NodePath.startsWithSlash path); [by exists path, true|].
    destruct (String.eqb_spec cwd "").
    - by exists path, false.
    - exists (cwd ++ "/" ++ path)%string, (NodePath.startsWithSlash cwd).
      split; [|by apply endsIn_app].
      change (path ++ "/" ++ "")%string with (path ++ "/")%string.
      rewrite <- !string_app_assoc. by destruct (NodePath.startsWithSlash cwd). }
  destruct (normalizeString_endsIn name full (negb absolute) Hname Hfull) as [_ Hp].
  destruct absolute; [by apply endsIn_slash|].
  pose proof (endsIn_ne _ _ Hne Hp) as Hpne'. apply String.eqb_neq in Hpne'.
  by rewrite Hpne'.
Qed.

Lemma endsIn_last name path :
  plainName name -> endsIn name path -> last (NodePath.splitSlash "" path) = Some name.
Proof.
  intros Hname [->|[pre ->]].
  - by rewrite (proj1 Hname).
  - rewrite splitSlash_app_slash, (proj1 Hname). apply last_snoc.
Qed.

(** Two file names of the home directory name two files. *)
Lemma diskPath_home_inj env name1 name2 :
  os_homedir env <> "" -> plainName name1 -> plainName name2 ->
  diskPath env (NodePath.join [os_homedir env; name1])
  = diskPath env (NodePath.join [os_homedir env; name2]) ->
  name1 = name2.
Proof.
  intros Hhome H1 H2 Heq.
  pose proof (resolve_endsIn (process_cwd env) _ _ H1 (join_endsIn _ _ Hhome H1)) as E1.
  pose proof (resolve_endsIn (process_cwd env) _ _ H2 (join_endsIn _ _ Hhome H2)) as E2.
  unfold diskPath in Heq. rewrite Heq in E1.
  apply (endsIn_last _ _ H1) in E1. apply (endsIn_last _ _ H2) in E2.
  congruence.
Qed.

Lemma legacy_file_is_not_the_global_file env :
  os_homedir env <> "" ->
  diskPath env (NodePath.join [os_homedir env; ".angular-cli.json"])
  <> diskPath env (NodePath.join [os_homedir env; globalFileName]).
Proof.
  intros Hhome Heq. apply diskPath_home_inj in Heq; [done|done|..];
    by repeat split.
Qed.

Section RepeatTheorems.
Variable env : Env.
Variable lib : Collaborators.

(** The migration looks at the legacy file only: two disks that agree on
    it give the same outcome, and the same write or none. *)
Lemma migrateLegacyGlobalConfig_depends st1 st2 :
  let legacyFile := diskPath env (NodePath.join [os_homedir env; ".angular-cli.json"]) in
  let globalFile := diskPath env (NodePath.join [os_homedir env; globalFileName]) in
  files st1 !! legacyFile = files st2 !! legacyFile ->
  fst (migrateLegacyGlobalConfig env lib st1) = fst (migrateLegacyGlobalConfig env lib st2)
  /\ exists written : option string,
       (fst (migrateLegacyGlobalConfig env lib st1) = Return true -> is_Some written)
       /\ (is_Some written -> os_homedir env <> "")
       /\ forall st, st = st1 \/ st = st2 ->
            files (snd (migrateLegacyGlobalConfig env lib st))
            = match written with
              | Some data => <[globalFile := data]> (files st)
              | None => files st
              end.
Proof.
  intros legacyFile globalFile Hsame.
  rewrite !migrateLegacyGlobalConfig_eq. cbv zeta. fold legacyFile globalFile.
  destruct (truthy (os_homedir env)) eqn:Hhome.
  2: { split; [done|]. exists None. split; [done|]. split; [by intros [? ?]|].
       intros st Hst. rewrite migrateLegacyGlobalConfig_eq. cbv zeta. by rewrite Hhome. }
  apply truthy_true in Hhome. rewrite <- Hsame.
  destruct (files st1 !! legacyFile) as [content|] eqn:Hfile.
  2: { split; [done|]. exists None. split; [done|]. split; [by intros [? ?]|].
       intros st Hst. rewrite migrateLegacyGlobalConfig_eq. cbv zeta.
       apply truthy_true in Hhome. rewrite Hhome. fold legacyFile.
       assert (files st !! legacyFile = None) as ->; [|done].
       destruct Hst as [-> | ->]; [done|by rewrite <- Hsame]. }
  assert (forall st, st = st1 \/ st = st2 -> files st !! legacyFile = Some content)
    as Hcontent.
  { intros st [-> | ->]; [done|by rewrite <- Hsame]. }
  assert (forall (r : bool) (s1 s2 : State),
            (Return r, s1).1 = (Return r, s2).1) as Hfst by done.
  destruct (parseJson lib content) as [[| | | | |legacy]|] eqn:Hparse.
  1-5,7: split; [done|]; exists None; (split; [done|]); (split; [by intros [? ?]|]);
    intros st Hst; rewrite migrateLegacyGlobalConfig_eq; cbv zeta;
    apply truthy_true in Hhome; rewrite Hhome; fold legacyFile;
    by rewrite (Hcontent st Hst), Hparse.
  destruct (0 <? size (legacyCli legacy))%nat eqn:Hsize.
  - split; [done|]. eexists (Some _). split; [by eexists|]. split; [done|].
    intros st Hst. rewrite migrateLegacyGlobalConfig_eq. cbv zeta.
    pose proof Hhome as Htruthy. apply truthy_true in Htruthy. rewrite Htruthy.
    fold legacyFile. rewrite (Hcontent st Hst), Hparse, Hsize. done.
  - split; [done|]. exists None. split; [done|]. split; [by intros [? ?]|].
    intros st Hst. rewrite migrateLegacyGlobalConfig_eq. cbv zeta.
    apply truthy_true in Hhome. rewrite Hhome. fold legacyFile.
    by rewrite (Hcontent st Hst), Hparse, Hsize.
Qed.

Lemma getLegacyPackageManager_depends st1 st2 :
  let legacyFile := diskPath env (NodePath.join [os_homedir env; ".angular-cli.json"]) in
  files st1 !! legacyFile = files st2 !! legacyFile ->
  fst (getLegacyPackageManager env lib st1) = fst (getLegacyPackageManager env lib st2).
Proof.
  intros legacyFile Hsame. rewrite !getLegacyPackageManager_eq. cbv zeta.
  fold legacyFile. rewrite <- Hsame.
  destruct (truthy (os_homedir env)); [|done].
  destruct (files st1 !! legacyFile) as [content|]; [|done].
  by destruct (parseJson lib content) as [[| | | | |legacy]|].
Qed.

(** X15. [migrateLegacyGlobalConfig] leaves the legacy file as it is and
    keeps no record of having run: run again it gives the same result and
    leaves the disk as the first run did, and [getLegacyPackageManager]
    reads what it read before. It does not look at the global file in the
    home directory: whatever that file held, a migration that returns true
    has replaced it. *)
Theorem migrateLegacyGlobalConfig_repeatable st :
  let legacyFile := diskPath env (NodePath.join [os_homedir env; ".angular-cli.json"]) in
  let globalPath := NodePath.join [os_homedir env; globalFileName] in
  let st' := snd (migrateLegacyGlobalConfig env lib st) in
  files st' !! legacyFile = files st !! legacyFile
  /\ fst (migrateLegacyGlobalConfig env lib st') = fst (migrateLegacyGlobalConfig env lib st)
  /\ files (snd (migrateLegacyGlobalConfig env lib st')) = files st'
  /\ fst (getLegacyPackageManager env lib st') = fst (getLegacyPackageManager env lib st)
  /\ (forall data,
        let st2 := snd (writeFileSync env globalPath data st) in
        fst (migrateLegacyGlobalConfig env lib st2)
        = fst (migrateLegacyGlobalConfig env lib st)
        /\ (fst (migrateLegacyGlobalConfig env lib st) = Return true ->
            files (snd (migrateLegacyGlobalConfig env lib st2)) = files st')).
Proof.
  intros legacyFile globalPath st'.
  assert (files st' !! legacyFile = files st !! legacyFile) as Hkept.
  { destruct (migrateLegacyGlobalConfig_depends st st eq_refl)
      as (_ & written & _ & Hhome & Hfiles).
    subst st'. rewrite (Hfiles st) by (by left).
    destruct written as [data|]; [|done].
    apply lookup_insert_ne. apply not_eq_sym, legacy_file_is_not_the_global_file.
    apply Hhome. by eexists. }
  split; [done|].
  destruct (migrateLegacyGlobalConfig_depends st' st Hkept)
    as (Hsame & written & _ & _ & Hfiles).
  split; [done|]. split.
  { rewrite (Hfiles st') by (by left). fold st' in Hfiles.
    pose proof (Hfiles st (or_intror eq_refl)) as Hfirst. fold st' in Hfirst.
    destruct written as [data|]; [|done].
    by rewrite Hfirst, insert_insert_eq. }
  split; [by apply getLegacyPackageManager_depends|].
  intros data st2.
  assert (files st2 !! legacyFile = files st !! legacyFile) as Hkept2.
  { destruct (decide (os_homedir env = "")) as [Hhome|Hhome].
    - subst st2 legacyFile globalPath. simpl. rewrite Hhome.
      destruct (decide (diskPath env (NodePath.join [""; globalFileName])
                        = diskPath env (NodePath.join [""; ".angular-cli.json"])))
        as [Heq|Hne]; [|by apply lookup_insert_ne].
      exfalso. revert Heq. unfold diskPath.
      change (NodePath.join [""; globalFileName]) with globalFileName.
      change (NodePath.join [""; ".angular-cli.json"]) with ".angular-cli.json".
      intros Heq.
      assert (plainName globalFileName) as H1 by (by repeat split).
      assert (plainName ".angular-cli.json") as H2 by (by repeat split).
      pose proof (resolve_endsIn (process_cwd env) _ _ H1 (or_introl eq_refl)) as E1.
      pose proof (resolve_endsIn (process_cwd env) _ _ H2 (or_introl eq_refl)) as E2.
      rewrite Heq in E1.
      apply (endsIn_last _ _ H1) in E1. apply (endsIn_last _ _ H2) in E2.
      by rewrite E1 in E2.
    - subst st2. simpl. apply lookup_insert_ne.
      by apply not_eq_sym, legacy_file_is_not_the_global_file. }
  destruct (migrateLegacyGlobalConfig_depends st2 st Hkept2)
    as (Hsame2 & written2 & Htrue & _ & Hfiles2).
  split; [done|]. intros Hret. rewrite <- Hsame2 in Hret.
  destruct (Htrue Hret) as [data' ->].
  rewrite (Hfiles2 st2) by (by left). subst st'. rewrite (Hfiles2 st) by (by right).
  subst st2. simpl. apply insert_insert_eq.
Qed.
End RepeatTheorems.

(** ** Failures and results of the settings resolvers *)

Section PropagationTheorems.
Variable env : Env.
Variable lib : Collaborators.


(** X6. A package manager [getConfiguredPackageManager] returns is never
    the empty string, whichever of the project, the local workspace, the
    global workspace and the legacy file it comes from: the result is null
    or a name. *)
Theorem getConfiguredPackageManager_never_empty st packageManager :
  fst (getConfiguredPackageManager env lib st) = Return (Some packageManager) ->
  packageManager <> "".
Proof.
  assert (forall source s, getPackageManager source = Some s -> s <> "") as Hmodern.
  { intros source s Hs. by apply getPackageManager_Some in Hs as (? & _ & _ & ?). }
  unfold getConfiguredPackageManager. unfold mbind at 1, M_bind.
  destruct (getWorkspace env lib local st) as [[lw|e] st1]; [|done].
  cbv zeta.
  match goal with |- fst (match ?r with _ => _ end _) = _ -> _ =>
    destruct r as [s|] eqn:Hresult end.
  { simpl. intros [= <-]. destruct lw as [w|]; [|done].
    destruct (if truthyName (getProjectByCwd env w) then _ else _) as [s'|] eqn:Hp;
      simpl in Hresult.
    - injection Hresult as ->. destruct (truthyName _); [|done]. by eapply Hmodern.
    - by eapply Hmodern. }
  unfold mbind at 1, M_bind.
  destruct (getWorkspace env lib global st1) as [[gw|e] st2]; [|done].
  assert (forall g : option AngularWorkspace,
            Return (getPackageManager (g ≫= λ g, extensions (workspace g) !! "cli"))
            = Return (Some packageManager) -> packageManager <> "") as Hglobal.
  { intros g [= Hs]. by eapply Hmodern. }
  destruct lw as [w|]; [by apply Hglobal|]. destruct gw as [g|]; [by apply Hglobal|].
  rewrite getLegacyPackageManager_eq. cbv zeta.
  destruct (truthy (os_homedir env)); [|done].
  destruct (files st2 !! _); [|done].
  destruct (parseJson lib _) as [[| | | | |legacy]|]; try done. simpl.
  intros [= Hs]. apply legacyPackageManager_Some in Hs. by destruct Hs as (_ & ? & _).
Qed.
End PropagationTheorems.


Lemma getConfiguredPackageManager_never_empty_witness : "pnpm" <> "".
Proof.
  apply (getConfiguredPackageManager_never_empty Examples.env (Model.lib Examples.env)
           Examples.loaded).
  by vm_compute.
Defined.

(** ** Resolved paths *)

Lemma noSlash_app s t : noSlash (s ++ t)%string = noSlash s && noSlash t.
Proof.
  induction s as [|c s IH]; [done|].
  change (String c s ++ t)%string with (String c (s ++ t))%string.
  simpl. rewrite IH. by rewrite andb_assoc.
Qed.

Lemma splitSlash_noSlash cur s :
  noSlash s = true -> NodePath.splitSlash cur s = [(cur ++ s)%string].
Proof.
  revert cur. induction s as [|c s IH]; intros cur Hs; simpl in *.
  - f_equal. induction cur as [|c cur IHc]; [done|].
    change (String c cur ++ "")%string with (String c (cur ++ ""))%string.
    by rewrite <- IHc.
  - apply andb_true_iff in Hs as [Hc Hs]. apply negb_true_iff in Hc. rewrite Hc.
    rewrite IH by done. by rewrite string_app_assoc.
Qed.

Lemma splitSlash_Forall_noSlash cur s :
  noSlash cur = true -> Forall (fun x => noSlash x = true) (NodePath.splitSlash cur s).
Proof.
  revert cur. induction s as [|c s IH]; intros cur Hcur; simpl.
  - by constructor.
  - destruct (Ascii.eqb c "/") eqn:Hc.
    + constructor; [done|]. by apply IH.
    + apply IH. rewrite noSlash_app, Hcur. simpl. by rewrite Hc.
Qed.

Lemma foldl_joinSlash_split acc segs :
  Forall (fun x => noSlash x = true) segs ->
  NodePath.splitSlash "" (foldl (fun acc x => acc ++ "/" ++ x)%string acc segs)
  = NodePath.splitSlash "" acc ++ segs.
Proof.
  revert acc. induction segs as [|x segs IH]; intros acc Hsegs; simpl.
  - by rewrite app_nil_r.
  - inversion Hsegs as [|? ? Hx Hrest]; subst.
    rewrite IH by done. rewrite splitSlash_app_slash.
    rewrite (splitSlash_noSlash "" x Hx). by rewrite <- app_assoc.
Qed.

Lemma splitSlash_joinSlash s segs :
  Forall (fun x => noSlash x = true) (s :: segs) ->
  NodePath.splitSlash "" (NodePath.joinSlash (s :: segs)) = s :: segs.
Proof.
  intros H. inversion H as [|? ? Hs Hsegs]; subst. simpl.
  rewrite foldl_joinSlash_split by done. by rewrite (splitSlash_noSlash "" s Hs).
Qed.

Lemma pushSegment_isSegment allowAboveRoot stack s :
  isSegment s -> NodePath.pushSegment allowAboveRoot stack s = s :: stack.
Proof.
  intros (_ & H1 & H2 & H3). unfold NodePath.pushSegment.
  apply String.eqb_neq in H1, H2, H3. by rewrite H1, H2, H3.
Qed.

Lemma foldl_pushSegment_segments allowAboveRoot stack segs :
  Forall isSegment segs ->
  foldl (NodePath.pushSegment allowAboveRoot) stack segs = rev segs ++ stack.
Proof.
  revert stack. induction segs as [|s segs IH]; intros stack Hsegs; [done|].
  inversion Hsegs as [|? ? Hs Hrest]; subst. simpl.
  rewrite pushSegment_isSegment by done. rewrite IH by done.
  by rewrite <- app_assoc.
Qed.

(** What [normalizeString] keeps below the root are segments. *)
Lemma foldl_pushSegment_Forall stack pieces :
  Forall isSegment stack -> Forall (fun x => noSlash x = true) pieces ->
  Forall isSegment (foldl (NodePath.pushSegment false) stack pieces).
Proof.
  revert stack. induction pieces as [|x pieces IH]; intros stack Hstack Hpieces; [done|].
  inversion Hpieces as [|? ? Hx Hrest]; subst. simpl. apply IH; [|done].
  unfold NodePath.pushSegment.
  destruct (String.eqb_spec x ""); [done|].
  destruct (String.eqb_spec x "."); [done|]. simpl.
  destruct (String.eqb_spec x "..").
  - destruct stack as [|top rest]; [done|].
    destruct (String.eqb top ".."); [done|]. by inversion Hstack.
  - constructor; [|done]. by repeat split.
Qed.

Lemma normalizeSegments_Forall path :
  Forall isSegment (NodePath.normalizeSegments path false).
Proof.
  unfold NodePath.normalizeSegments. apply Forall_rev.
  apply foldl_pushSegment_Forall; [done|]. by apply splitSlash_Forall_noSlash.
Qed.

Lemma isSegment_noSlash segs :
  Forall isSegment segs -> Forall (fun x => noSlash x = true) segs.
Proof. intros H. eapply Forall_impl; [exact H|]. by intros s [? _]. Qed.

(** The pieces of an absolute path. *)
Lemma splitSlash_absolutePath segs :
  Forall isSegment segs ->
  NodePath.splitSlash "" (absolutePath segs) = "" :: match segs with [] => [""] | _ => segs end.
Proof.
  intros Hsegs. unfold absolutePath.
  change ("/" ++ NodePath.joinSlash segs)%string
    with ("" ++ "/" ++ NodePath.joinSlash segs)%string.
  rewrite splitSlash_app_slash. simpl. f_equal.
  destruct segs as [|s segs]; [done|].
  apply splitSlash_joinSlash. by apply isSegment_noSlash.
Qed.

Lemma normalizeSegments_absolutePath segs allowAboveRoot :
  Forall isSegment segs ->
  NodePath.normalizeSegments (absolutePath segs) allowAboveRoot = segs.
Proof.
  intros Hsegs. unfold NodePath.normalizeSegments.
  rewrite splitSlash_absolutePath by done.
  destruct segs as [|s segs]; [done|].
  change (foldl (NodePath.pushSegment allowAboveRoot) [] ("" :: s :: segs))
    with (foldl (NodePath.pushSegment allowAboveRoot) [] (s :: segs)).
  rewrite foldl_pushSegment_segments by done. by rewrite app_nil_r, rev_involutive.
Qed.

Lemma segments_absolutePath segs :
  Forall isSegment segs -> NodePath.segments (absolutePath segs) = segs.
Proof.
  intros Hsegs. unfold NodePath.segments. rewrite splitSlash_absolutePath by done.
  assert (forall l, Forall isSegment l -> filter (fun s : string => s <> "") l = l) as Hkeep.
  { induction 1 as [|x l (_ & Hx & _) _ IH]; [done|].
    by rewrite filter_cons_True, IH. }
  rewrite filter_cons_False by (by intros H).
  destruct segs as [|s segs]; [done|]. by apply Hkeep.
Qed.

Lemma absolutePath_inj segs1 segs2 :
  Forall isSegment segs1 -> Forall isSegment segs2 ->
  absolutePath segs1 = absolutePath segs2 -> segs1 = segs2.
Proof.
  intros H1 H2 Heq. rewrite <- (segments_absolutePath segs1), <- (segments_absolutePath segs2)
    by done. by rewrite Heq.
Qed.

(** [resolve] leaves an absolute path as it is. *)
Lemma resolve_absolutePath cwd segs :
  Forall isSegment segs -> NodePath.resolve cwd [absolutePath segs] = absolutePath segs.
Proof.
  intros Hsegs. unfold NodePath.resolve. simpl.
  change (absolutePath segs ++ "/" ++ "")%string with (absolutePath segs ++ "/")%string.
  unfold NodePath.normalizeString. rewrite normalizeSegments_slash.
  by rewrite normalizeSegments_absolutePath.
Qed.

(** With an absolute working directory [resolve] gives an absolute path. *)
Lemma resolveLoop_absolute cwd rargs acc :
  NodePath.isAbsolute cwd = true ->
  exists path, NodePath.resolveLoop (rargs ++ [cwd]) acc = (path, true).
Proof.
  intros Hcwd. revert acc. induction rargs as [|p rargs IH]; intros acc; simpl.
  - destruct cwd as [|c cwd]; [done|].
    unfold NodePath.isAbsolute, NodePath.startsWithSlash in Hcwd. simpl.
    rewrite Hcwd. by eexists.
  - destruct (String.eqb p ""); [apply IH|].
    destruct (NodePath.startsWithSlash p); [by eexists|apply IH].
Qed.

Lemma resolve_absolute cwd args :
  NodePath.isAbsolute cwd = true ->
  exists segs, Forall isSegment segs /\ NodePath.resolve cwd args = absolutePath segs.
Proof.
  intros Hcwd. unfold NodePath.resolve.
  destruct (resolveLoop_absolute cwd (rev args) "" Hcwd) as [path ->]. simpl.
  exists (NodePath.normalizeSegments path false). split; [apply normalizeSegments_Forall|done].
Qed.

Lemma commonPrefix_le f t : (NodePath.commonPrefix f t <= List.length f)%nat.
Proof.
  revert t. induction f as [|x f IH]; intros [|y t]; simpl; try lia.
  destruct (String.eqb x y); [|lia]. specialize (IH t). lia.
Qed.

Lemma commonPrefix_app f rest : NodePath.commonPrefix f (f ++ rest) = List.length f.
Proof.
  induction f as [|x f IH]; simpl.
  - by destruct rest.
  - by rewrite String.eqb_refl, IH.
Qed.

Lemma commonPrefix_full f t :
  NodePath.commonPrefix f t = List.length f -> exists rest, t = f ++ rest.
Proof.
  revert t. induction f as [|x f IH]; intros t H.
  - by exists t.
  - destruct t as [|y t]; [done|]. simpl in H.
    destruct (String.eqb_spec x y) as [->|]; [|done].
    destruct (IH t) as [rest ->]; [lia|]. by exists rest.
Qed.

Lemma foldl_joinSlash_app acc segs :
  exists suffix,
    foldl (fun acc x => acc ++ "/" ++ x)%string acc segs = (acc ++ suffix)%string.
Proof.
  revert acc. induction segs as [|x segs IH]; intros acc; simpl.
  - exists "". induction acc as [|c acc IHc]; [done|].
    change (String c acc ++ "")%string with (String c (acc ++ ""))%string.
    by rewrite <- IHc.
  - destruct (IH (acc ++ "/" ++ x)%string) as [suffix ->].
    exists ("/" ++ x ++ suffix)%string. by rewrite !string_app_assoc.
Qed.

Lemma prefix_nil s : String.prefix "" s = true.
Proof. by destruct s. Qed.

Lemma prefix_cons a s1 b s2 :
  String.prefix (String a s1) (String b s2)
  = if Ascii.eqb a b then String.prefix s1 s2 else false.
Proof.
  change (String.prefix (String a s1) (String b s2))
    with (match ascii_dec a b with
          | left _ => String.prefix s1 s2
          | right _ => false
          end).
  by destruct (ascii_dec a b), (Ascii.eqb_spec a b).
Qed.

Lemma prefix_dotdot_app s suffix :
  isSegment s -> String.prefix ".." (s ++ suffix) = String.prefix ".." s.
Proof.
  intros (_ & H1 & H2 & _). destruct s as [|c1 [|c2 s]]; [done| |].
  - change (String c1 "" ++ suffix)%string with (String c1 suffix).
    rewrite !prefix_cons.
    destruct (Ascii.eqb_spec "." c1) as [<-|]; [by destruct H2|done].
  - change (String c1 (String c2 s) ++ suffix)%string
      with (String c1 (String c2 (s ++ suffix)))%string.
    by rewrite !prefix_cons, !prefix_nil.
Qed.

Lemma startsWithSlash_app s suffix :
  isSegment s -> NodePath.startsWithSlash (s ++ suffix) = false.
Proof.
  intros (Hs & H1 & _). destruct s as [|c s]; [done|].
  change (String c s ++ suffix)%string with (String c (s ++ suffix))%string.
  simpl in *. apply andb_true_iff in Hs as [Hc _]. by apply negb_true_iff in Hc.
Qed.

(** [relative] between two absolute paths. *)
Lemma relative_absolutePath cwd f t :
  Forall isSegment f -> Forall isSegment t ->
  NodePath.relative cwd (absolutePath f) (absolutePath t)
  = if decide (f = t) then ""
    else NodePath.joinSlash
           (replicate (List.length f - NodePath.commonPrefix f t) ".."
              ++ drop (NodePath.commonPrefix f t) t).
Proof.
  intros Hf Ht. unfold NodePath.relative.
  destruct (decide (f = t)) as [->|Hne]; [by rewrite String.eqb_refl|].
  assert (absolutePath f <> absolutePath t) as Hpaths.
  { intros Heq. by apply Hne, absolutePath_inj. }
  apply String.eqb_neq in Hpaths. rewrite Hpaths. cbv zeta.
  rewrite !resolve_absolutePath by done. rewrite Hpaths.
  by rewrite !segments_absolutePath.
Qed.

Section InsideFacts.
Variable env : Env.
Hypothesis absolute_cwd : NodePath.isAbsolute (process_cwd env) = true.

(** The containment test of [getProjectByPath], on the resolved paths: the
    target is the base or lies below it, and the first segment below the
    base does not begin with two dots. *)
Lemma isInside_segments w base potential :
  isInside env w base potential = true <->
  exists rest,
    NodePath.segments (NodePath.resolve (process_cwd env) [basePath w; potential])
    = NodePath.segments (NodePath.resolve (process_cwd env) [basePath w; base]) ++ rest
    /\ match rest with
       | [] => True
       | s :: _ => String.prefix ".." s = false
       end.
Proof.
  unfold isInside.
  destruct (resolve_absolute (process_cwd env) [basePath w; base] absolute_cwd)
    as (f & Hf & ->).
  destruct (resolve_absolute (process_cwd env) [basePath w; potential] absolute_cwd)
    as (t & Ht & ->).
  rewrite relative_absolutePath, !segments_absolutePath by done.
  destruct (decide (f = t)) as [->|Hne].
  { split; [|done]. intros _. exists []. by rewrite app_nil_r. }
  pose proof (commonPrefix_le f t) as Hle.
  destruct (decide (NodePath.commonPrefix f t = List.length f)) as [Hfull|Hshort].
  - destruct (commonPrefix_full f t Hfull) as [rest ->].
    rewrite Hfull, Nat.sub_diag, drop_app_length. simpl.
    destruct rest as [|s rest]; [by rewrite app_nil_r in Hne|].
    assert (isSegment s) as Hs.
    { apply Forall_app in Ht as [_ Ht]. by inversion Ht. }
    simpl. destruct (foldl_joinSlash_app s rest) as [suffix ->].
    unfold NodePath.isAbsolute.
    rewrite prefix_dotdot_app, (startsWithSlash_app s suffix Hs) by done.
    split.
    + intros H. exists (s :: rest). split; [done|]. by destruct (String.prefix ".." s).
    + intros (rest' & Heq & Hok). apply app_inv_head in Heq as <-. by rewrite Hok.
  - split.
    + destruct (List.length f - NodePath.commonPrefix f t)%nat as [|k] eqn:Hk; [lia|].
      simpl.
      destruct (foldl_joinSlash_app ".."
                  (replicate k ".." ++ drop (NodePath.commonPrefix f t) t))
        as [suffix ->].
      change (".." ++ suffix)%string with (String "." (String "." suffix)).
      by rewrite !prefix_cons, prefix_nil.
    + intros (rest & -> & _). by rewrite commonPrefix_app in Hshort.
Qed.
End InsideFacts.

Section NestedRoots.
Variable env : Env.
Hypothesis absolute_cwd : NodePath.isAbsolute (process_cwd env) = true.

(** Nested roots, elsewhere: in a workspace with a project of root [a] and
    one of root [a/b], a target at or below [a/b] whose first segment below
    [a/b] does not begin with two dots is given to the project of root
    [a/b], whatever other projects there are that do not contain it. *)
Lemma getProjectByPath_nested_roots_below w location nA pA nB pB sub rest :
  NoDup (projects (workspace w)).*1 ->
  (nA, pA) ∈ projects (workspace w) ->
  (nB, pB) ∈ projects (workspace w) ->
  root pB = (root pA ++ "/" ++ sub)%string ->
  belowBase env w (root pB) location rest ->
  match rest with
  | [] => True
  | s :: _ => String.prefix ".." s = false
  end ->
  (forall n p rest', (n, p) ∈ projects (workspace w) -> n <> nA -> n <> nB ->
                     ~ belowBase env w (root p) location rest') ->
  getProjectByPath env w location = Some nB.
Proof.
  intros Hnd HA HB Hroot Hbelow Hdots Hothers.
  apply (getProjectByPath_nested_roots env w location nA pA nB pB sub); try done.
  - apply isInside_segments; [done|]. by exists rest.
  - intros n p Hin HnA HnB.
    destruct (isInside env w (root p) location) eqn:Hinside; [|done].
    apply isInside_segments in Hinside as (rest' & Hrest' & _); [|done].
    by destruct (Hothers n p rest' Hin HnA HnB).
Qed.
End NestedRoots.

Example getProjectByPath_nested_roots_below_example :
  getProjectByPath Examples.env Examples.nested "/w/a/b/c/f" = Some "inner".
Proof.
  apply (getProjectByPath_nested_roots_below Examples.env eq_refl Examples.nested
           "/w/a/b/c/f" "outer" {| root := "a"; projectExtensions := ∅ |}
           "inner" {| root := "a/b"; projectExtensions := ∅ |} "b" ["c"; "f"]).
  - vm_compute. repeat constructor; set_solver.
  - vm_compute. set_solver.
  - vm_compute. set_solver.
  - reflexivity.
  - by vm_compute.
  - reflexivity.
  - intros n p rest' Hin HnA HnB. vm_compute in Hin. set_solver.
Qed.
